(** * Legal Analyser: the API client (src/LegalAnalyser.js) and the analysis
      engine it talks to.

    The first part embeds the JavaScript client: the [apiFetch] helper, the
    five exported API functions and the two React hooks [useAnalyze] and
    [useGraph].  Asynchronous functions are modelled by the settled state of
    the promise they return together with the ordered list of effects
    (network requests, state-setter calls) they perform on the way.

    The second part models the analysis engine behind [POST /analyze].  Its
    implementation (main.py) is not among the sources; it is modelled from
    the specification and every definition says so. *)

From Stdlib Require Import String Ascii List Bool NArith ZArith QArith Qminmax Lia Lqa.
From Stdlib Require Import DecimalString Permutation.
Import ListNotations.
Set Warnings "-register-all".
Local Open Scope list_scope.
Local Open Scope string_scope.

(** ** The JavaScript host *)

(** What the client takes from the JavaScript engine and never defines:
    the number type of parsed JSON bodies with its truthiness and [ToString],
    and the messages of the two [TypeError]s that can be raised on its
    paths: reading a property of [null], and converting to a string an
    object that has no usable [toString]. *)
Class JsEngine : Type := {
  number : Type;
  number_truthy : number -> bool;
  number_toString : number -> string;
  null_read_message : string -> string;
  not_primitive_message : string
}.

Module Js.

Section Values.
Context {E : JsEngine}.

(** A value obtained from [Response.json()]: the objects keep their keys in
    insertion order and hold each key once. *)
Inductive JValue : Type :=
| JNull
| JBool (b : bool)
| JNum (n : number)
| JStr (s : string)
| JArr (items : list JValue)
| JObj (fields : list (string * JValue)).

(** An exception object: every value thrown on the paths of this client is
    an [Error] (or a subclass) with a string [message]. *)
Record JsError : Type := mkError { name : string; message : string }.

(** [new Error(msg)] *)
Definition Error (msg : string) : JsError := mkError "Error" msg.

(** The [TypeError] of reading property [prop] of [null]. *)
Definition TypeError_null_read (prop : string) : JsError :=
  mkError "TypeError" (null_read_message prop).

(** The [TypeError] of ToPrimitive on an object whose [toString] and
    [valueOf] give no primitive. *)
Definition TypeError_not_primitive : JsError :=
  mkError "TypeError" not_primitive_message.

(** The settled state of a promise. *)
Inductive Promise (A : Type) : Type :=
| Resolved (a : A)
| Rejected (e : JsError).

Fixpoint lookup (key : string) (fields : list (string * JValue)) : option JValue :=
  match fields with
  | [] => None
  | (k, v) :: rest => if String.eqb k key then Some v else lookup key rest
  end.

(** [v.prop] for a property name that no prototype defines (such as
    [detail]): [None] is [undefined]; reading from [null] throws. *)
Definition get_property (v : JValue) (prop : string) : JsError + option JValue :=
  match v with
  | JNull => inl (TypeError_null_read prop)
  | JObj fields => inr (lookup prop fields)
  | _ => inr None
  end.

(** ToBoolean, on a value that may be [undefined]. *)
Definition truthy (v : option JValue) : bool :=
  match v with
  | None => false
  | Some JNull => false
  | Some (JBool b) => b
  | Some (JNum n) => number_truthy n
  | Some (JStr s) => negb (String.eqb s "")
  | Some (JArr _) => true
  | Some (JObj _) => true
  end.

(** [a || b] *)
Definition logical_or (a : option JValue) (b : JValue) : JValue :=
  match a with
  | Some v => if truthy a then v else b
  | None => b
  end.

Fixpoint join (sep : string) (parts : list string) : string :=
  match parts with
  | [] => ""
  | [p] => p
  | p :: rest => p ++ sep ++ join sep rest
  end.

(** ToString.  An array is its elements joined by commas, with [null]
    elements printed as the empty string.  A parsed object is
    "[object Object]" unless it has a key [toString] of its own: the value
    under it is not a function, [Object.prototype.valueOf] returns the
    object itself, and the conversion throws. *)
Fixpoint toString (v : JValue) : JsError + string :=
  match v with
  | JNull => inr "null"
  | JBool true => inr "true"
  | JBool false => inr "false"
  | JNum n => inr (number_toString n)
  | JStr s => inr s
  | JArr items =>
      let fix each (l : list JValue) : JsError + list string :=
        match l with
        | [] => inr []
        | i :: rest =>
            match (match i with JNull => inr "" | _ => toString i end) with
            | inl e => inl e
            | inr s =>
                match each rest with
                | inl e => inl e
                | inr ss => inr (s :: ss)
                end
            end
        end in
      match each items with
      | inl e => inl e
      | inr parts => inr (join "," parts)
      end
  | JObj fields =>
      match lookup "toString" fields with
      | Some _ => inl TypeError_not_primitive
      | None => inr "[object Object]"
      end
  end.

End Values.

Arguments Resolved {A} a.
Arguments Rejected {A} e.

(** *** Text helpers.  A [string] is the UTF-8 encoding of the JavaScript
    string, byte by byte. *)

Definition hex_digit (upper : bool) (d : N) : ascii :=
  if (d <? 10)%N then ascii_of_N (48 + d)
  else ascii_of_N ((if upper then 55 else 87) + d).

Definition hex2 (upper : bool) (c : ascii) : string :=
  let n := N_of_ascii c in
  String (hex_digit upper (n / 16)) (String (hex_digit upper (n mod 16)) "").

(** The characters [encodeURIComponent] leaves alone:
    [A-Z a-z 0-9 - _ . ! ~ * ' ( )]. *)
Definition uri_unreserved (c : ascii) : bool :=
  let n := N_of_ascii c in
  ((65 <=? n) && (n <=? 90) || (97 <=? n) && (n <=? 122) || (48 <=? n) && (n <=? 57)
   || (n =? 45) || (n =? 95) || (n =? 46) || (n =? 33) || (n =? 126)
   || (n =? 42) || (n =? 39) || (n =? 40) || (n =? 41))%N.

(** [encodeURIComponent] on the UTF-8 bytes of a string without unpaired
    surrogates ([well_formed_utf8] below); on an unpaired surrogate the real
    function throws a URIError, and what is proved of the encoding is proved
    for well-formed arguments. *)
Fixpoint encodeURIComponent (s : string) : string :=
  match s with
  | EmptyString => ""
  | String c rest =>
      (if uri_unreserved c then String c "" else "%" ++ hex2 true c)
      ++ encodeURIComponent rest
  end.

(** QuoteJSONString, one byte at a time. *)
Definition json_escape (c : ascii) : string :=
  let n := N_of_ascii c in
  if (n =? 8)%N then "\b"
  else if (n =? 9)%N then "\t"
  else if (n =? 10)%N then "\n"
  else if (n =? 12)%N then "\f"
  else if (n =? 13)%N then "\r"
  else if (n =? 34)%N then String "\" (String c "")
  else if (n =? 92)%N then "\\"
  else if (n <? 32)%N then "\u00" ++ hex2 false c
  else String c "".

Fixpoint json_escape_all (s : string) : string :=
  match s with
  | EmptyString => ""
  | String c rest => json_escape c ++ json_escape_all rest
  end.

Definition json_quote (s : string) : string :=
  String "034" (json_escape_all s ++ String "034" "").

Section Stringify.
Context {E : JsEngine}.

(** [JSON.stringify] on JSON data (its numbers are finite, so they print as
    [ToString] does). *)
Fixpoint JSON_stringify (v : JValue) : string :=
  match v with
  | JNull => "null"
  | JBool true => "true"
  | JBool false => "false"
  | JNum n => number_toString n
  | JStr s => json_quote s
  | JArr items => "[" ++ join "," (map JSON_stringify items) ++ "]"
  | JObj fields =>
      "{" ++ join "," (map (fun kv => json_quote (fst kv) ++ ":" ++ JSON_stringify (snd kv))
                           fields) ++ "}"
  end.

End Stringify.

(** A status code in a template literal. *)
Definition status_toString (n : N) : string := NilZero.string_of_uint (N.to_uint n).

End Js.

(** ** Effects of the client *)

Module Client.
Import Js.

Section Client.
Context {E : JsEngine}.

(** The second argument of [fetch] as [apiFetch] builds it, with the URL. *)
Record Request : Type := mkRequest {
  url : string;
  method : option string;
  headers : list (string * string);
  body : option string
}.

(** [options]: each key may be missing; [{}] is [no_options]. *)
Record Options : Type := mkOptions {
  opt_method : option string;
  opt_headers : option (list (string * string));
  opt_body : option string
}.

Definition no_options : Options := mkOptions None None None.

(** What the client reads of a [Response]: [status], [statusText] and the
    promise returned by [json()]. *)
Record Response : Type := mkResponse {
  status : N;
  statusText : string;
  json : Promise JValue
}.

(** [res.ok] *)
Definition ok (res : Response) : bool := ((200 <=? status res) && (status res <=? 299))%N.

(** The network: what [fetch] settles to for a request. *)
Definition Network : Type := Request -> Promise Response.

(** The state setters of the two hooks. *)
Inductive Setter : Type :=
| setData (v : JValue)
| setGraphData (v : JValue)
| setLoading (b : bool)
| setError (m : option string).

Inductive Event : Type :=
| Fetch (r : Request)
| Call (s : Setter).

(** An asynchronous computation that has run to the end: the effects it
    performed, in order, and the settled state of its promise. *)
Definition Async (A : Type) : Type := (list Event * Promise A)%type.

Definition trace {A} (m : Async A) : list Event := fst m.
Definition outcome {A} (m : Async A) : Promise A := snd m.

Definition ret {A} (a : A) : Async A := ([], Resolved a).
Definition throw {A} (e : JsError) : Async A := ([], Rejected e).

Definition bind {A B} (m : Async A) (k : A -> Async B) : Async B :=
  match m with
  | (t, Resolved a) => let (t', r) := k a in ((t ++ t')%list, r)
  | (t, Rejected e) => (t, Rejected e)
  end.

Definition call (s : Setter) : Async unit := ([Call s], Resolved tt).

(** [await fetch(url, init)] *)
Definition fetch (net : Network) (r : Request) : Async Response := ([Fetch r], net r).

(** Awaiting an already settled promise. *)
Definition await {A} (p : Promise A) : Async A := ([], p).

(** [promise.catch(handler)] with a handler that returns a value. *)
Definition catch {A} (p : Promise A) (handler : JsError -> A) : Promise A :=
  match p with
  | Resolved a => Resolved a
  | Rejected e => Resolved (handler e)
  end.

(** [try { body } catch (e) { handler } finally { final }]: the handler runs
    on a rejection of the body, the final block runs last in both cases, and
    the result is that of the body or the handler unless the final block
    itself throws. *)
Definition try_catch_finally {A} (body : Async A) (handler : JsError -> Async A)
    (final : Async unit) : Async A :=
  let (t1, r1) := body in
  let (t2, r2) := match r1 with
                  | Resolved a => ([], Resolved a)
                  | Rejected e => handler e
                  end in
  let (t3, r3) := final in
  ((t1 ++ t2 ++ t3)%list, match r3 with Resolved _ => r2 | Rejected e => Rejected e end).

End Client.

Declare Scope async_scope.
Delimit Scope async_scope with async.
Notation "x <- m ;; k" := (bind m (fun x => k))
  (at level 61, m at next level, right associativity) : async_scope.
Notation "m ;;; k" := (bind m (fun _ => k))
  (at level 61, right associativity) : async_scope.

Section Api.
Context {E : JsEngine}.
Local Open Scope async_scope.

(** [process.env.REACT_APP_API_URL], [None] when it is not set. *)
Variable REACT_APP_API_URL : option string.
Variable net : Network.

Definition BASE_URL : string :=
  match REACT_APP_API_URL with
  | Some u => if String.eqb u "" then "http://localhost:8000" else u
  | None => "http://localhost:8000"
  end.

(** [{ headers: { "Content-Type": "application/json" }, ...options }] *)
Definition init (path : string) (options : Options) : Request :=
  mkRequest (BASE_URL ++ path)
            (opt_method options)
            (match opt_headers options with
             | Some h => h
             | None => [("Content-Type", "application/json")]
             end)
            (opt_body options).

Definition apiFetch (path : string) (options : Options) : Async JValue :=
  res <- fetch net (init path options) ;;
  if negb (ok res) then
    err <- await (catch (json res) (fun _ => JObj [("detail", JStr (statusText res))])) ;;
    match get_property err "detail" with
    | inl type_error => throw type_error
    | inr detail =>
        match toString (logical_or detail
                          (JStr ("HTTP " ++ status_toString (status res)))) with
        | inl type_error => throw type_error
        | inr msg => throw (Error msg)
        end
    end
  else await (json res).

(** [state = "All India"] and [category = null] on a missing argument. *)
Definition analyzeCase (caseDescription : string) (state category : option string)
  : Async JValue :=
  let state := match state with Some s => s | None => "All India" end in
  let category := match category with Some c => JStr c | None => JNull end in
  apiFetch "/analyze"
    (mkOptions (Some "POST") None
       (Some (JSON_stringify (JObj [("case_description", JStr caseDescription);
                                    ("state", JStr state);
                                    ("category", category)])))).

Definition getGraph (sectionId : string) : Async JValue :=
  apiFetch ("/graph/" ++ encodeURIComponent sectionId) no_options.

Definition getSection (sectionId : string) : Async JValue :=
  apiFetch ("/section/" ++ encodeURIComponent sectionId) no_options.

Definition searchSections (query : string) : Async JValue :=
  apiFetch ("/search?q=" ++ encodeURIComponent query) no_options.

Definition checkHealth : Async JValue := apiFetch "/health" no_options.

End Api.

(** *** The hooks.  A hook instance owns three state cells; a setter call
    with a plain value overwrites its cell. *)

Module UseAnalyze.
Section UseAnalyze.
Context {E : JsEngine}.
Local Open Scope async_scope.
Variable REACT_APP_API_URL : option string.
Variable net : Network.

Record State : Type := mkState { data : JValue; loading : bool; error : option string }.

(** [useState(null)], [useState(false)], [useState(null)] *)
Definition initial : State := mkState JNull false None.

Definition apply (s : State) (ev : Event) : State :=
  match ev with
  | Call (setData v) => mkState v (loading s) (error s)
  | Call (setLoading b) => mkState (data s) b (error s)
  | Call (setError m) => mkState (data s) (loading s) m
  | _ => s
  end.

Definition run (s : State) (events : list Event) : State := fold_left apply events s.

Definition analyze (caseDescription : string) (state category : option string)
  : Async JValue :=
  call (setLoading true) ;;;
  call (setError None) ;;;
  try_catch_finally
    (result <- analyzeCase REACT_APP_API_URL net caseDescription state category ;;
     call (setData result) ;;;
     ret result)
    (fun e => call (setError (Some (message e))) ;;; ret JNull)
    (call (setLoading false)).

Definition reset : Async unit :=
  call (setData JNull) ;;;
  call (setError None).

End UseAnalyze.
End UseAnalyze.

Module UseGraph.
Section UseGraph.
Context {E : JsEngine}.
Local Open Scope async_scope.
Variable REACT_APP_API_URL : option string.
Variable net : Network.

Record State : Type := mkState { graphData : JValue; loading : bool; error : option string }.

Definition initial : State := mkState JNull false None.

Definition apply (s : State) (ev : Event) : State :=
  match ev with
  | Call (setGraphData v) => mkState v (loading s) (error s)
  | Call (setLoading b) => mkState (graphData s) b (error s)
  | Call (setError m) => mkState (graphData s) (loading s) m
  | _ => s
  end.

Definition run (s : State) (events : list Event) : State := fold_left apply events s.

Definition fetchGraph (sectionId : string) : Async JValue :=
  call (setLoading true) ;;;
  call (setError None) ;;;
  try_catch_finally
    (result <- getGraph REACT_APP_API_URL net sectionId ;;
     call (setGraphData result) ;;;
     ret result)
    (fun e => call (setError (Some (message e))) ;;; ret JNull)
    (call (setLoading false)).

End UseGraph.
End UseGraph.

End Client.

(** ** The analysis engine

    [POST /analyze] is served by main.py, which is not among the sources.
    The engine below follows sections 3 to 7 of the specification; the
    constants the specification leaves open are the fields of [Config]. *)

Module Engine.

(** Modelled from the spec: the error taxonomy of the absent backend
    (section 7). *)
Inductive EngineError : Type :=
| InvalidInput
| NotFound
| StoreUnavailable
| InternalInconsistency.

(** Modelled from the spec: a stage of the absent backend either fails with
    one structured error or returns its value, never both. *)
Definition Result (A : Type) : Type := (EngineError + A)%type.

Definition ret {A} (a : A) : Result A := inr a.
Definition fail {A} (e : EngineError) : Result A := inl e.

Definition bind {A B} (m : Result A) (k : A -> Result B) : Result B :=
  match m with
  | inl e => inl e
  | inr a => k a
  end.

Declare Scope result_scope.
Delimit Scope result_scope with result.
Notation "x <- m ;; k" := (bind m (fun x => k))
  (at level 61, m at next level, right associativity) : result_scope.
Local Open Scope result_scope.

(** Runs [f] on every element, left to right, stopping at the first error. *)
Fixpoint for_each {A B} (f : A -> Result B) (l : list A) : Result (list B) :=
  match l with
  | [] => ret []
  | a :: rest =>
      b <- f a ;;
      bs <- for_each f rest ;;
      ret (b :: bs)
  end.

(** *** Entities (section 3), with the fields the stages read *)

(** Modelled from the spec: the LegalSection node of the absent graph store. *)
Record LegalSection : Type := {
  section_id : string;
  section_number : string;
  jurisdictions : list string;
  category : string;
  severity_level : N
}.

(** Modelled from the spec: the CaseType node of the absent graph store. *)
Record CaseType : Type := {
  case_type_id : string;
  scenario_description : string
}.

(** Modelled from the spec: the LegalAction node of the absent graph store. *)
Record LegalAction : Type := {
  action_id : string;
  action_name : string;
  authority_involved : string;
  cost_min : Q;
  cost_max : Q;
  risk_level : N
}.

(** Modelled from the spec: the Evidence node of the absent graph store. *)
Record Evidence : Type := {
  evidence_id : string;
  evidence_name : string
}.

(** Modelled from the spec: the Outcome node of the absent graph store. *)
Record Outcome : Type := {
  outcome_id : string;
  outcome_description : string
}.

(** Modelled from the spec: the attributes of a HAS_ACTION edge. *)
Record HasAction : Type := { hint : Z; edge_conditions : string }.

(** Modelled from the spec: the attributes of a REQUIRES_EVIDENCE edge. *)
Record RequiresEvidence : Type := { necessity : N; how_it_proves : string }.

(** Modelled from the spec: the Graph Store Adapter of the absent backend
    (section 4.1), [neighbors] given once per relationship type; the last
    field gives, for an action, its LEADS_TO_OUTCOME edges with the
    individual probability of each. *)
Record Store : Type := {
  searchByText : string -> Result (list (LegalSection * Q));
  case_types_of : string -> Result (list (CaseType * Q));
  actions_of : string -> Result (list (LegalAction * HasAction));
  evidence_of : string -> Result (list (Evidence * RequiresEvidence));
  outcomes_of : string -> Result (list (Outcome * Q))
}.

(** Modelled from the spec: the constants that section 9 leaves to the
    implementer: the two scoring weights of the Section Matcher, the margin
    under which two matches count as near-tied, and the three weights of the
    confidence score. *)
Record Config : Type := {
  text_weight : Q;
  bonus_weight : Q;
  near_tie_margin : Q;
  top_weight : Q;
  stage_weight : Q;
  ambiguity_weight : Q
}.

(** Modelled from the spec: the input of the absent [POST /analyze] handler. *)
Record AnalysisInput : Type := {
  case_description : string;
  state : option string;
  input_category : option string
}.

(** Modelled from the spec: "clamped to [0,1]". *)
Definition clamp01 (q : Q) : Q :=
  if Qle_bool q 0 then 0 else if Qle_bool 1 q then 1 else q.

(** *** Merging by id and ordering, shared by the stages *)

Section MergeById.
Context {V : Type} (key : V -> string) (merge : V -> V -> V).

(** Modelled from the spec: the mapping keyed by entity id of section 9,
    kept in order of first appearance; [merge] is the entity's merge
    function. *)
Fixpoint upsert (v : V) (acc : list V) : list V :=
  match acc with
  | [] => [v]
  | x :: rest =>
      if String.eqb (key x) (key v) then merge x v :: rest
      else x :: upsert v rest
  end.

Definition merge_by_id (items : list V) : list V :=
  fold_left (fun acc v => upsert v acc) items [].

End MergeById.

Section Ordering.
Context {A : Type} (precedes : A -> A -> bool).

(** Modelled from the spec: a stable ordering of a stage's output by the
    strict order [precedes]. *)
Fixpoint insert_ordered (x : A) (l : list A) : list A :=
  match l with
  | [] => [x]
  | y :: rest => if precedes x y then x :: y :: rest else y :: insert_ordered x rest
  end.

Definition order_by (l : list A) : list A :=
  fold_left (fun acc x => insert_ordered x acc) l [].

End Ordering.

(** *** Section Matcher (section 4.2) *)

(** Modelled from the spec: a scored match of the absent Section Matcher. *)
Record ScoredMatch : Type := {
  section : LegalSection;
  relevance_score : Q
}.

Definition mentions (names : list string) (name : string) : bool :=
  existsb (String.eqb name) names.

(** Modelled from the spec: "section applies if its jurisdiction set
    contains All India or the requested state". *)
Definition applies_in (requested : string) (s : LegalSection) : bool :=
  mentions (jurisdictions s) "All India" || mentions (jurisdictions s) requested.

(** Modelled from the spec: "and by category if provided". *)
Definition in_category (requested : option string) (s : LegalSection) : bool :=
  match requested with
  | Some c => String.eqb (category s) c
  | None => true
  end.

(** Modelled from the spec: the "jurisdiction/category exactness bonus":
    one half for a section that names the requested state itself, one half
    for a requested category. *)
Definition exactness_bonus (requested : string) (cat : option string) (s : LegalSection) : Q :=
  (if mentions (jurisdictions s) requested then 1 # 2 else 0)
  + (match cat with Some _ => 1 # 2 | None => 0 end).

(** Modelled from the spec: "Score = weighted combination of text-match
    score and a jurisdiction/category exactness bonus", carried as a
    relevance_score in [0,1]. *)
Definition score (cfg : Config) (requested : string) (cat : option string)
    (hit : LegalSection * Q) : ScoredMatch :=
  {| section := fst hit;
     relevance_score :=
       clamp01 (text_weight cfg * snd hit
                + bonus_weight cfg * exactness_bonus requested cat (fst hit)) |}.

(** Modelled from the spec: descending relevance, "ties broken by
    severity_level descending, then by section_number ascending". *)
Definition ranks_before (a b : ScoredMatch) : bool :=
  if Qeq_bool (relevance_score a) (relevance_score b) then
    if (severity_level (section a) =? severity_level (section b))%N then
      String.ltb (section_number (section a)) (section_number (section b))
    else (severity_level (section b) <? severity_level (section a))%N
  else negb (Qle_bool (relevance_score a) (relevance_score b)).

(** Modelled from the spec: the Section Matcher of the absent backend. *)
Definition section_matcher (cfg : Config) (store : Store) (input : AnalysisInput)
  : Result (list ScoredMatch) :=
  if String.eqb (case_description input) "" then fail InvalidInput
  else
    hits <- searchByText store (case_description input) ;;
    let requested := match state input with Some s => s | None => "All India" end in
    let kept := filter (fun hit => applies_in requested (fst hit)
                                   && in_category (input_category input) (fst hit)) hits in
    ret (order_by ranks_before (map (score cfg requested (input_category input)) kept)).

(** *** Context Aggregator (section 4.3) *)

(** Modelled from the spec: a case type with the maximum relevance seen and
    the sections it was reached from. *)
Record CaseTypeItem : Type := {
  case_type : CaseType;
  case_type_relevance : Q;
  case_type_sections : list string
}.

(** Modelled from the spec: an evidence item with the maximum necessity seen
    and, per section, how it proves the case. *)
Record EvidenceItem : Type := {
  evidence : Evidence;
  necessity_level : N;
  proves : list (string * string)
}.

Definition merge_case_type (a b : CaseTypeItem) : CaseTypeItem :=
  {| case_type := case_type a;
     case_type_relevance := Qmax (case_type_relevance a) (case_type_relevance b);
     case_type_sections := case_type_sections a ++ case_type_sections b |}.

Definition merge_evidence (a b : EvidenceItem) : EvidenceItem :=
  {| evidence := evidence a;
     necessity_level := N.max (necessity_level a) (necessity_level b);
     proves := proves a ++ proves b |}.

(** Modelled from the spec: the Context Aggregator of the absent backend:
    the neighbours of every matched section, deduplicated by id. *)
Definition context_aggregator (store : Store) (matches : list ScoredMatch)
  : Result (list CaseTypeItem * list EvidenceItem) :=
  case_types <- for_each (fun m =>
      found <- case_types_of store (section_id (section m)) ;;
      ret (map (fun ce => {| case_type := fst ce;
                             case_type_relevance := snd ce;
                             case_type_sections := [section_id (section m)] |}) found))
    matches ;;
  evidences <- for_each (fun m =>
      found <- evidence_of store (section_id (section m)) ;;
      ret (map (fun ee => {| evidence := fst ee;
                             necessity_level := necessity (snd ee);
                             proves := [(section_id (section m), how_it_proves (snd ee))] |})
               found))
    matches ;;
  ret (merge_by_id (fun c => case_type_id (case_type c)) merge_case_type (concat case_types),
       merge_by_id (fun e => evidence_id (evidence e)) merge_evidence (concat evidences)).

(** *** Action Planner (section 4.4) *)

(** Modelled from the spec: an entry of the action plan. *)
Record PlannedAction : Type := {
  action : LegalAction;
  plan_cost_min : Q;
  plan_cost_max : Q;
  sequence_hint : Z;
  conditions : list string;
  sequence : nat
}.

(** Modelled from the spec: "keeping minimum cost_min, maximum cost_max
    observed, and the union of conditions"; the earliest hint is kept. *)
Definition merge_action (a b : PlannedAction) : PlannedAction :=
  {| action := action a;
     plan_cost_min := Qmin (plan_cost_min a) (plan_cost_min b);
     plan_cost_max := Qmax (plan_cost_max a) (plan_cost_max b);
     sequence_hint := Z.min (sequence_hint a) (sequence_hint b);
     conditions := conditions a ++ filter (fun c => negb (mentions (conditions a) c))
                                          (conditions b);
     sequence := sequence a |}.

(** Modelled from the spec: "the sequence hint first (ascending), then by
    risk_level ascending". *)
Definition planned_before (a b : PlannedAction) : bool :=
  if (sequence_hint a =? sequence_hint b)%Z
  then (risk_level (action a) <? risk_level (action b))%N
  else (sequence_hint a <? sequence_hint b)%Z.

(** Modelled from the spec: "a final monotonically increasing sequence field
    1..N in the output plan". *)
Fixpoint number_from (n : nat) (plan : list PlannedAction) : list PlannedAction :=
  match plan with
  | [] => []
  | a :: rest =>
      {| action := action a; plan_cost_min := plan_cost_min a;
         plan_cost_max := plan_cost_max a; sequence_hint := sequence_hint a;
         conditions := conditions a; sequence := n |} :: number_from (S n) rest
  end.

(** Modelled from the spec: the Action Planner of the absent backend. *)
Definition action_planner (store : Store) (matches : list ScoredMatch)
  : Result (list PlannedAction) :=
  found <- for_each (fun m =>
      edges <- actions_of store (section_id (section m)) ;;
      ret (map (fun ae => {| action := fst ae;
                             plan_cost_min := cost_min (fst ae);
                             plan_cost_max := cost_max (fst ae);
                             sequence_hint := hint (snd ae);
                             conditions := [edge_conditions (snd ae)];
                             sequence := 0 |}) edges))
    matches ;;
  ret (number_from 1
         (order_by planned_before
            (merge_by_id (fun a => action_id (action a)) merge_action (concat found)))).

(** *** Outcome Synthesizer (section 4.5) *)

(** Modelled from the spec: one LEADS_TO_OUTCOME edge followed from a planned
    action: the outcome, the individual probability, the action's name. *)
Record Contribution : Type := {
  reached : Outcome;
  individual_probability : Q;
  via : string
}.

(** Modelled from the spec: an outcome being aggregated, with the running
    product of [1 - p_i] over the contributions seen so far. *)
Record Aggregate : Type := {
  aggregated : Outcome;
  miss_product : Q;
  factors : list string
}.

(** Modelled from the spec: an entry of outcome_probabilities. *)
Record OutcomeProbability : Type := {
  outcome : Outcome;
  probability : Q;
  influencing_factors : list string
}.

Definition start_aggregate (c : Contribution) : Aggregate :=
  {| aggregated := reached c;
     miss_product := 1 - individual_probability c;
     factors := [via c] |}.

Definition merge_aggregate (a b : Aggregate) : Aggregate :=
  {| aggregated := aggregated a;
     miss_product := miss_product a * miss_product b;
     factors := factors a ++ filter (fun f => negb (mentions (factors a) f)) (factors b) |}.

(** Modelled from the spec: "combined = 1 - prod (1 - p_i) ..., clamped to
    [0,1]". *)
Definition finish_aggregate (a : Aggregate) : OutcomeProbability :=
  {| outcome := aggregated a;
     probability := clamp01 (1 - miss_product a);
     influencing_factors := factors a |}.

(** Modelled from the spec: "For each planned action, fetch LEADS_TO_OUTCOME
    edges". *)
Definition outcome_edges (store : Store) (plan : list PlannedAction)
  : Result (list Contribution) :=
  found <- for_each (fun a =>
      edges <- outcomes_of store (action_id (action a)) ;;
      ret (map (fun oe => {| reached := fst oe;
                             individual_probability := snd oe;
                             via := action_name (action a) |}) edges))
    plan ;;
  ret (concat found).

Definition aggregate_key (a : Aggregate) : string := outcome_id (aggregated a).

(** Modelled from the spec: "aggregate by outcome id". *)
Definition aggregates (contributions : list Contribution) : list Aggregate :=
  merge_by_id aggregate_key merge_aggregate (map start_aggregate contributions).

Definition synthesize (contributions : list Contribution) : list OutcomeProbability :=
  map finish_aggregate (aggregates contributions).

(** Modelled from the spec: the contributions that reach the outcome [id],
    and the product [prod (1 - p_i)] of the combination formula; both are
    used to state what the synthesizer computes. *)
Definition contributions_to (id : string) (cs : list Contribution) : list Contribution :=
  filter (fun c => String.eqb (outcome_id (reached c)) id) cs.

Definition miss_all (ps : list Q) : Q := fold_right (fun p acc => (1 - p) * acc) 1 ps.

(** Modelled from the spec: the Outcome Synthesizer of the absent backend. *)
Definition outcome_synthesizer (store : Store) (plan : list PlannedAction)
  : Result (list OutcomeProbability) :=
  contributions <- outcome_edges store plan ;;
  ret (synthesize contributions).

(** *** Reasoning Tracer (section 4.6) *)

(** Modelled from the spec: the step types of the absent Reasoning Tracer. *)
Inductive StepType : Type := match_step | aggregate_step | plan_step | synthesize_step.

(** Modelled from the spec: the "compact result summary" of a step: how many
    items the stage produced and, for the match stage, the relevance of the
    top match and the number of matches near-tied with it. *)
Record StepResult : Type := {
  produced : nat;
  top_relevance : Q;
  near_tied : nat
}.

(** Modelled from the spec: a ReasoningStep of the absent Reasoning Tracer. *)
Record ReasoningStep : Type := {
  step : nat;
  step_type : StepType;
  description : string;
  result : StepResult
}.

(** Modelled from the spec: recording a step gives it the next index. *)
Definition record_step (ty : StepType) (text : string) (r : StepResult)
    (trace : list ReasoningStep) : list ReasoningStep :=
  trace ++ [{| step := S (length trace); step_type := ty; description := text; result := r |}].

Definition counted (n : nat) : StepResult :=
  {| produced := n; top_relevance := 0; near_tied := 0 |}.

(** Modelled from the spec: the summary of the match stage. *)
Definition match_result (cfg : Config) (matches : list ScoredMatch) : StepResult :=
  match matches with
  | [] => counted 0
  | top :: others =>
      {| produced := length matches;
         top_relevance := relevance_score top;
         near_tied :=
           length (filter (fun m => Qle_bool (relevance_score top - relevance_score m)
                                             (near_tie_margin cfg)) others) |}
  end.

Definition is_match_step (s : ReasoningStep) : bool :=
  match step_type s with match_step => true | _ => false end.

Definition ratio (a b : nat) : Q := inject_Z (Z.of_nat a) / inject_Z (Z.of_nat b).

(** Modelled from the spec: "fraction of stages that produced non-empty
    output". *)
Definition stage_fraction (trace : list ReasoningStep) : Q :=
  ratio (length (filter (fun s => negb (Nat.eqb (produced (result s)) 0)) trace))
        (length trace).

(** Modelled from the spec: "inverse of ambiguity", one over the number of
    matches tied for the top; nothing matched is not unambiguous. *)
Definition unambiguity (r : StepResult) : Q :=
  if Nat.eqb (produced r) 0 then 0 else ratio 1 (S (near_tied r)).

(** Modelled from the spec: "confidence_score = normalized combination of
    (top match relevance_score), (fraction of stages that produced non-empty
    output), (inverse of ambiguity)", a pure function of the trace. *)
Definition confidence (cfg : Config) (trace : list ReasoningStep) : Q :=
  let matched := match find is_match_step trace with
                 | Some s => result s
                 | None => counted 0
                 end in
  (top_weight cfg * top_relevance matched
   + stage_weight cfg * stage_fraction trace
   + ambiguity_weight cfg * unambiguity matched)
  / (top_weight cfg + stage_weight cfg + ambiguity_weight cfg).

(** *** The pipeline (section 2) *)

(** Modelled from the spec: the AnalysisResult of the absent backend. *)
Record AnalysisResult : Type := {
  result_case_description : string;
  matched_sections : list ScoredMatch;
  case_types : list CaseTypeItem;
  action_plan : list PlannedAction;
  evidence_checklist : list EvidenceItem;
  outcome_probabilities : list OutcomeProbability;
  reasoning_trace : list ReasoningStep;
  confidence_score : Q
}.

(** Modelled from the spec: one step "per major stage invocation (match,
    aggregate, plan, synthesize)". *)
Definition compile_trace (cfg : Config) (matches : list ScoredMatch)
    (context : list CaseTypeItem * list EvidenceItem) (plan : list PlannedAction)
    (outcomes : list OutcomeProbability) : list ReasoningStep :=
  record_step synthesize_step "Combined the outcomes reachable from the plan"
    (counted (length outcomes))
    (record_step plan_step "Merged and ordered the actions of the matched sections"
       (counted (length plan))
       (record_step aggregate_step "Collected case types and evidence of the matched sections"
          (counted (length (fst context) + length (snd context)))
          (record_step match_step "Ranked the sections relevant to the description"
             (match_result cfg matches) []))).

(** Modelled from the spec: the control flow of the absent backend: input,
    Section Matcher, then Context Aggregator, Action Planner and Outcome
    Synthesizer, then the Reasoning Tracer; the first error ends the
    analysis. *)
Definition analyze (cfg : Config) (store : Store) (input : AnalysisInput)
  : Result AnalysisResult :=
  matches <- section_matcher cfg store input ;;
  context <- context_aggregator store matches ;;
  plan <- action_planner store matches ;;
  outcomes <- outcome_synthesizer store plan ;;
  let trace := compile_trace cfg matches context plan outcomes in
  ret {| result_case_description := case_description input;
         matched_sections := matches;
         case_types := fst context;
         action_plan := plan;
         evidence_checklist := snd context;
         outcome_probabilities := outcomes;
         reasoning_trace := trace;
         confidence_score := confidence cfg trace |}.

End Engine.

(** ** A small graph to run the engine on *)

Module Sample.
Import Engine.

Definition cheating : LegalSection :=
  {| section_id := "IPC_420"; section_number := "420"; jurisdictions := ["All India"];
     category := "Criminal"; severity_level := 3 |}.

Definition fraud_case : CaseType :=
  {| case_type_id := "CT_FRAUD"; scenario_description := "Money taken on a false promise" |}.

Definition file_fir : LegalAction :=
  {| action_id := "ACT_FIR"; action_name := "File an FIR";
     authority_involved := "Police"; cost_min := 0; cost_max := 500; risk_level := 1 |}.

Definition recovery_suit : LegalAction :=
  {| action_id := "ACT_SUIT"; action_name := "File a recovery suit";
     authority_involved := "Civil Court"; cost_min := 5000; cost_max := 50000;
     risk_level := 2 |}.

Definition receipts : Evidence :=
  {| evidence_id := "EV_RECEIPT"; evidence_name := "Payment receipts" |}.

Definition money_recovered : Outcome :=
  {| outcome_id := "OUT_RECOVERY"; outcome_description := "The money is recovered" |}.

(** The text index knows one word; the two actions of the section lead to
    the same outcome with probabilities 0.5 and 0.4. *)
Definition store : Store :=
  {| searchByText := fun query =>
       match String.index 0 "cheated" query with
       | Some _ => ret [(cheating, 4 # 5)]
       | None => ret []
       end;
     case_types_of := fun id =>
       if String.eqb id "IPC_420" then ret [(fraud_case, 9 # 10)] else fail NotFound;
     actions_of := fun id =>
       if String.eqb id "IPC_420"
       then ret [(recovery_suit, {| hint := 2; edge_conditions := "if the amount is known" |});
                 (file_fir, {| hint := 1; edge_conditions := "within the limitation period" |})]
       else fail NotFound;
     evidence_of := fun id =>
       if String.eqb id "IPC_420"
       then ret [(receipts, {| necessity := 2; how_it_proves := "shows the payment" |})]
       else fail NotFound;
     outcomes_of := fun id =>
       if String.eqb id "ACT_FIR" then ret [(money_recovered, 1 # 2)]
       else if String.eqb id "ACT_SUIT" then ret [(money_recovered, 2 # 5)]
       else fail NotFound |}.

Definition config : Config :=
  {| text_weight := 7 # 10; bonus_weight := 3 # 10; near_tie_margin := 1 # 20;
     top_weight := 1 # 2; stage_weight := 3 # 10; ambiguity_weight := 1 # 5 |}.

Definition cheated : AnalysisInput :=
  {| case_description := "neighbour cheated me with false promises of money";
     state := None; input_category := None |}.

Definition unrelated : AnalysisInput :=
  {| case_description := "the weather was pleasant"; state := None; input_category := None |}.

(** The plan for the one section of the graph. *)
Definition plan : list PlannedAction :=
  match action_planner store [{| section := cheating; relevance_score := 1 |}] with
  | inr p => p
  | inl _ => []
  end.

End Sample.

(** An engine to run the client on: integers for numbers, the messages of V8. *)
Definition integer_engine : JsEngine := {|
  number := Z;
  number_truthy := fun z => negb (z =? 0)%Z;
  number_toString := fun z => NilZero.string_of_int (Z.to_int z);
  null_read_message := fun prop => "Cannot read properties of null (reading '" ++ prop ++ "')";
  not_primitive_message := "Cannot convert object to primitive value"
|}.

Import Js Client.

(** A backend that answers every request with status 404 and the error body
    of a missing section. *)
Definition not_found_net : Network (E := integer_engine) :=
  fun _ => Resolved (mkResponse 404 "Not Found"
                       (Resolved (JObj [("detail", JStr "Section not found")]))).

(** A backend that answers every request with status 400 and the error body
    of an invalid input. *)
Definition invalid_input_net : Network (E := integer_engine) :=
  fun _ => Resolved (mkResponse 400 "Bad Request"
                       (Resolved (JObj [("detail",
                                         JStr "case_description must not be empty")]))).

(** A backend that answers every request with status 500 and an empty JSON
    object. *)
Definition broken_net : Network (E := integer_engine) :=
  fun _ => Resolved (mkResponse 500 "Internal Server Error" (Resolved (JObj []))).

(** A backend that answers every request with status 200 and a small body. *)
Definition healthy_net : Network (E := integer_engine) :=
  fun _ => Resolved (mkResponse 200 "OK" (Resolved (JObj [("status", JStr "ok")]))).

(** ** Calls in flight

    An asynchronous call runs at once up to its [fetch] and is suspended
    there; what follows runs in one piece when the response is there.  Other
    calls on the same hook may run in between. *)

(** The events a call performs before it is suspended, the [fetch]
    included. *)
Fixpoint until_fetch {E : JsEngine} (events : list Event) : list Event :=
  match events with
  | [] => []
  | Fetch r :: _ => [Fetch r]
  | ev :: rest => ev :: until_fetch rest
  end.

(** The events a call performs when it is resumed. *)
Fixpoint after_fetch {E : JsEngine} (events : list Event) : list Event :=
  match events with
  | [] => []
  | Fetch _ :: rest => rest
  | _ :: rest => after_fetch rest
  end.

(** A network that is down: [fetch] rejects. *)
Definition offline_net : Network (E := integer_engine) :=
  fun _ => Rejected (mkError "TypeError" "Failed to fetch").

(** A backend that answers every request with status 200 and a page that is
    not JSON. *)
Definition html_net : Network (E := integer_engine) :=
  fun _ => Resolved (mkResponse 200 "OK"
                       (Rejected (mkError "SyntaxError" "Unexpected token < in JSON"))).

(** ** Reading the encodings back

    The two readers below undo [encodeURIComponent] and the quoting of
    [JSON.stringify]; they serve to show that the encodings lose nothing. *)

Definition unhex (c : ascii) : option N :=
  let n := N_of_ascii c in
  if ((48 <=? n) && (n <=? 57))%N then Some (n - 48)%N
  else if ((65 <=? n) && (n <=? 70))%N then Some (n - 55)%N
  else if ((97 <=? n) && (n <=? 102))%N then Some (n - 87)%N
  else None.

(** Two hexadecimal digits as a byte. *)
Definition unhex2 (h l : ascii) : option ascii :=
  match unhex h, unhex l with
  | Some a, Some b => Some (ascii_of_N (16 * a + b))
  | _, _ => None
  end.

(** Reads a percent-encoded component back, byte by byte. *)
Fixpoint percent_decode (s : string) : option string :=
  match s with
  | EmptyString => Some ""
  | String c rest =>
      if Ascii.eqb c "%" then
        match rest with
        | String h (String l rest') =>
            match unhex2 h l, percent_decode rest' with
            | Some b, Some t => Some (String b t)
            | _, _ => None
            end
        | _ => None
        end
      else
        match percent_decode rest with
        | Some t => Some (String c t)
        | None => None
        end
  end.

(** The character a two-character escape stands for. *)
Definition unescape (c : ascii) : option ascii :=
  if Ascii.eqb c "b" then Some "008"%char
  else if Ascii.eqb c "t" then Some "009"%char
  else if Ascii.eqb c "n" then Some "010"%char
  else if Ascii.eqb c "f" then Some "012"%char
  else if Ascii.eqb c "r" then Some "013"%char
  else if Ascii.eqb c "034" then Some "034"%char
  else if Ascii.eqb c "\" then Some "\"%char
  else None.

(** Reads the characters of a JSON string literal up to the closing quote:
    the text read and what follows the quote. *)
Fixpoint read_json_chars (s : string) : option (string * string) :=
  match s with
  | EmptyString => None
  | String c rest =>
      if Ascii.eqb c "034" then Some ("", rest)
      else if Ascii.eqb c "\" then
        match rest with
        | String e rest' =>
            if Ascii.eqb e "u" then
              match rest' with
              | String z1 (String z2 (String h (String l rest''))) =>
                  if Ascii.eqb z1 "0" && Ascii.eqb z2 "0" then
                    match unhex2 h l, read_json_chars rest'' with
                    | Some b, Some (t, r) => Some (String b t, r)
                    | _, _ => None
                    end
                  else None
              | _ => None
              end
            else
              match unescape e, read_json_chars rest' with
              | Some b, Some (t, r) => Some (String b t, r)
              | _, _ => None
              end
        | EmptyString => None
        end
      else
        match read_json_chars rest with
        | Some (t, r) => Some (String c t, r)
        | None => None
        end
  end.

(** Reads a JSON string literal at the front of a text. *)
Definition read_json_string (s : string) : option (string * string) :=
  match s with
  | String c rest => if Ascii.eqb c "034" then read_json_chars rest else None
  | EmptyString => None
  end.

(** ** Well-formed arguments

    The byte strings that are the UTF-8 encoding of a JavaScript string
    without unpaired surrogates.  An unpaired surrogate would be the three
    bytes ED A0..BF xx, which the second line of the three-byte case
    refuses. *)

Definition in_range (lo hi : N) (c : ascii) : bool :=
  ((lo <=? N_of_ascii c) && (N_of_ascii c <=? hi))%N.

Definition second_of_three (a b : ascii) : bool :=
  if (N_of_ascii a =? 224)%N then in_range 160 191 b
  else if (N_of_ascii a =? 237)%N then in_range 128 159 b
  else in_range 128 191 b.

Definition second_of_four (a b : ascii) : bool :=
  if (N_of_ascii a =? 240)%N then in_range 144 191 b
  else if (N_of_ascii a =? 244)%N then in_range 128 143 b
  else in_range 128 191 b.

Fixpoint well_formed_utf8 (s : string) : bool :=
  match s with
  | EmptyString => true
  | String a r1 =>
      if in_range 0 127 a then well_formed_utf8 r1
      else if in_range 194 223 a then
        match r1 with
        | String b r2 => in_range 128 191 b && well_formed_utf8 r2
        | _ => false
        end
      else if in_range 224 239 a then
        match r1 with
        | String b (String c r3) =>
            second_of_three a b && in_range 128 191 c && well_formed_utf8 r3
        | _ => false
        end
      else if in_range 240 244 a then
        match r1 with
        | String b (String c (String d r4)) =>
            second_of_four a b && in_range 128 191 c && in_range 128 191 d
            && well_formed_utf8 r4
        | _ => false
        end
      else false
  end.

(** ** One graph, answered in another order

    The graph holds nodes and edges, not an order among them; the adapter
    answers with sequences. *)








(** * Properties of the client *)

Lemma append_assoc (a b c : string) : (a ++ b) ++ c = a ++ (b ++ c).
Proof. induction a as [| ch a IH]; simpl; [reflexivity | now rewrite IH]. Qed.

Lemma read_json_chars_step (c : ascii) (r : string) :
  read_json_chars (json_escape c ++ r)
  = match read_json_chars r with Some (t, k) => Some (String c t, k) | None => None end.
Proof.
  destruct c as [[] [] [] [] [] [] [] []]; reflexivity.
Qed.

Lemma read_json_string_quote (s r : string) :
  read_json_string (json_quote s ++ r) = Some (s, r).
Proof.
  unfold json_quote. cbn [append read_json_string]. cbn [Ascii.eqb Bool.eqb].
  induction s as [| c s IH].
  - reflexivity.
  - cbn [json_escape_all]. rewrite !append_assoc, read_json_chars_step.
    rewrite <- append_assoc. now rewrite IH.
Qed.

Lemma analyze_body_text {E : JsEngine} (c st : string) (category : JValue) :
  JSON_stringify (JObj [("case_description", JStr c); ("state", JStr st);
                        ("category", category)])
  = ("{" ++ json_quote "case_description" ++ ":") ++ json_quote c
    ++ ("," ++ json_quote "state" ++ ":") ++ json_quote st
    ++ ("," ++ json_quote "category" ++ ":") ++ JSON_stringify category ++ "}".
Proof.
  cbn [JSON_stringify map join fst snd]. rewrite !append_assoc. reflexivity.
Qed.

Section ClientFacts.
Context {E : JsEngine}.
Variable env : option string.
Variable net : Network.

Lemma apiFetch_trace (path : string) (options : Options) :
  trace (apiFetch env net path options) = [Fetch (init env path options)].
Proof.
  unfold apiFetch, fetch, bind, await, throw.
  destruct (net (init env path options)) as [res | e]; [| reflexivity].
  destruct (negb (ok res)).
  - destruct (catch (json res) _) as [err | e]; simpl.
    + destruct (get_property err "detail") as [te | d]; [reflexivity |].
      destruct (toString _); reflexivity.
    + reflexivity.
  - destruct (json res); reflexivity.
Qed.

(** What [apiFetch] settles to once [fetch] has resolved with a response
    whose [ok] is false. *)
Lemma apiFetch_not_ok (path : string) (options : Options) (res : Response) :
  net (init env path options) = Resolved res ->
  ok res = false ->
  outcome (apiFetch env net path options) =
    match get_property (match json res with
                        | Resolved v => v
                        | Rejected _ => JObj [("detail", JStr (statusText res))]
                        end) "detail" with
    | inl type_error => Rejected type_error
    | inr detail =>
        match toString (logical_or detail
                          (JStr ("HTTP " ++ status_toString (status res)))) with
        | inl type_error => Rejected type_error
        | inr msg => Rejected (Error msg)
        end
    end.
Proof.
  intros Hnet Hok. unfold apiFetch, fetch, bind, await, throw, catch, outcome.
  rewrite Hnet, Hok. simpl.
  destruct (json res) as [v | e]; simpl.
  - destruct (get_property v "detail") as [te | d]; [reflexivity |].
    destruct (toString _); reflexivity.
  - destruct (String.eqb (statusText res) ""); reflexivity.
Qed.

Lemma analyze_unfold (c : string) (s cat : option string) :
  UseAnalyze.analyze env net c s cat =
    let request := analyzeCase env net c s cat in
    (([Call (setLoading true); Call (setError None)] ++ trace request
      ++ match outcome request with
         | Resolved r => [Call (setData r)]
         | Rejected e => [Call (setError (Some (message e)))]
         end ++ [Call (setLoading false)])%list,
     match outcome request with
     | Resolved r => Resolved r
     | Rejected _ => Resolved JNull
     end).
Proof.
  unfold UseAnalyze.analyze, try_catch_finally, bind, call, ret, trace, outcome.
  destruct (analyzeCase env net c s cat) as [t [r | e]]; simpl;
    rewrite ?app_nil_r, <- ?app_assoc; reflexivity.
Qed.

Lemma fetchGraph_unfold (sectionId : string) :
  UseGraph.fetchGraph env net sectionId =
    let request := getGraph env net sectionId in
    (([Call (setLoading true); Call (setError None)] ++ trace request
      ++ match outcome request with
         | Resolved r => [Call (setGraphData r)]
         | Rejected e => [Call (setError (Some (message e)))]
         end ++ [Call (setLoading false)])%list,
     match outcome request with
     | Resolved r => Resolved r
     | Rejected _ => Resolved JNull
     end).
Proof.
  unfold UseGraph.fetchGraph, try_catch_finally, bind, call, ret, trace, outcome.
  destruct (getGraph env net sectionId) as [t [r | e]]; simpl;
    rewrite ?app_nil_r, <- ?app_assoc; reflexivity.
Qed.

End ClientFacts.

(** C1, as stated, fails: a 500 response whose JSON body is the empty
    object has no [detail] field, and [apiFetch] rejects with the message
    "HTTP 500", not with the status text "Internal Server Error". *)
Lemma apiFetch_absent_detail_counterexample :
  ~ (forall (E : JsEngine) (env : option string) (net : Network) (path : string)
            (options : Options) (res : Response) (fields : list (string * JValue)),
        net (init env path options) = Resolved res ->
        ok res = false ->
        json res = Resolved (JObj fields) ->
        exists e,
          outcome (apiFetch env net path options) = Rejected e /\
          (forall d, lookup "detail" fields = Some (JStr d) -> message e = d) /\
          (lookup "detail" fields = None -> message e = statusText res)).
Proof.
  intros claim.
  destruct (claim integer_engine None broken_net "/health" no_options
                  (mkResponse 500 "Internal Server Error" (Resolved (JObj []))) []
                  eq_refl eq_refl eq_refl) as [e [Hout [_ Habsent]]].
  specialize (Habsent eq_refl).
  vm_compute in Hout. injection Hout as <-.
  discriminate Habsent.
Qed.

(** C1, amended: on a response whose status is not 2xx [apiFetch] never
    resolves, it rejects.  A truthy [detail] of the JSON body is the message
    (a non-empty string as it is, any other value through ToString, whose
    own TypeError is thrown instead when the value has no string form); a JSON
    body other than [null] with no [detail], or a falsy one, gives the
    message "HTTP " followed by the status code; a body that is not JSON
    gives the status text, or "HTTP " and the status code when the status
    text is empty; the body [null] makes the read of [detail] throw a
    TypeError.  Every exported API function returns the promise of an
    [apiFetch] call, so it settles the same way. *)
Theorem apiFetch_rejects_non_2xx {E : JsEngine} (env : option string) (net : Network) :
  (forall (path : string) (options : Options) (res : Response),
      net (init env path options) = Resolved res ->
      ok res = false ->
      exists e,
        outcome (apiFetch env net path options) = Rejected e /\
        (forall body d, json res = Resolved body ->
                        get_property body "detail" = inr (Some (JStr d)) ->
                        d <> "" -> e = Error d) /\
        (forall body d, json res = Resolved body ->
                        get_property body "detail" = inr (Some d) ->
                        truthy (Some d) = true ->
                        match toString d with
                        | inr text => e = Error text
                        | inl type_error => e = type_error
                        end) /\
        (forall body d, json res = Resolved body ->
                        get_property body "detail" = inr d ->
                        truthy d = false ->
                        e = Error ("HTTP " ++ status_toString (status res))) /\
        (forall err, json res = Rejected err ->
                     e = Error (if String.eqb (statusText res) ""
                                then "HTTP " ++ status_toString (status res)
                                else statusText res)) /\
        (json res = Resolved JNull -> e = TypeError_null_read "detail")) /\
  (forall c s cat, exists options,
      analyzeCase env net c s cat = apiFetch env net "/analyze" options) /\
  (forall id, getGraph env net id
              = apiFetch env net ("/graph/" ++ encodeURIComponent id) no_options) /\
  (forall id, getSection env net id
              = apiFetch env net ("/section/" ++ encodeURIComponent id) no_options) /\
  (forall q, searchSections env net q
             = apiFetch env net ("/search?q=" ++ encodeURIComponent q) no_options) /\
  checkHealth env net = apiFetch env net "/health" no_options.
Proof.
  split; [| repeat split; intros; try reflexivity; eexists; reflexivity].
  intros path options res Hnet Hok.
  pose proof (apiFetch_not_ok env net path options res Hnet Hok) as Hout.
  destruct (json res) as [body | err] eqn:Hjson.
  - destruct (get_property body "detail") as [type_error | detail] eqn:Hget.
    + exists type_error. split; [exact Hout |].
      repeat split.
      * intros b d Hb Hd. injection Hb as <-. rewrite Hget in Hd. discriminate.
      * intros b d Hb Hd. injection Hb as <-. rewrite Hget in Hd. discriminate.
      * intros b d Hb Hd. injection Hb as <-. rewrite Hget in Hd. discriminate.
      * intros err Herr. discriminate.
      * intros Hb. injection Hb as ->. simpl in Hget. now injection Hget as <-.
    + destruct (toString (logical_or detail _)) as [type_error | text] eqn:Htext;
        eexists; (split; [exact Hout |]); repeat split.
      * intros b d Hb Hd Hne. injection Hb as <-. rewrite Hget in Hd.
        injection Hd as ->. unfold logical_or, truthy in Htext.
        destruct (String.eqb d "") eqn:Hd; [| discriminate].
        apply String.eqb_eq in Hd. contradiction.
      * intros b d Hb Hd Ht. injection Hb as <-. rewrite Hget in Hd.
        injection Hd as ->. unfold logical_or in Htext. rewrite Ht in Htext.
        now rewrite Htext.
      * intros b d Hb Hd Ht. injection Hb as <-. rewrite Hget in Hd.
        injection Hd as ->. unfold logical_or in Htext.
        destruct d; [rewrite Ht in Htext |]; discriminate.
      * intros err Herr. discriminate.
      * intros Hb. injection Hb as ->. discriminate.
      * intros b d Hb Hd Hne. injection Hb as <-. rewrite Hget in Hd.
        injection Hd as ->. unfold logical_or, truthy in Htext.
        destruct (String.eqb d "") eqn:Hd.
        -- apply String.eqb_eq in Hd. contradiction.
        -- simpl in Htext. now injection Htext as <-.
      * intros b d Hb Hd Ht. injection Hb as <-. rewrite Hget in Hd.
        injection Hd as ->. unfold logical_or in Htext. rewrite Ht in Htext.
        now rewrite Htext.
      * intros b d Hb Hd Ht. injection Hb as <-. rewrite Hget in Hd.
        injection Hd as ->. unfold logical_or in Htext.
        destruct d; [rewrite Ht in Htext |]; simpl in Htext; now injection Htext as <-.
      * intros err Herr. discriminate.
      * intros Hb. injection Hb as ->. discriminate.
  - simpl in Hout. unfold logical_or, truthy in Hout.
    destruct (String.eqb (statusText res) ""); simpl in Hout;
      (eexists; split; [exact Hout |]);
      repeat split; try (intros b d Hb; discriminate); intros Hb; discriminate.
Qed.

(** [apiFetch_rejects_non_2xx] at a 404 answer with the uniform error body:
    the message is the [detail] of the body. *)
Lemma apiFetch_rejects_non_2xx_witness :
  exists e,
    outcome (apiFetch None not_found_net "/section/IPC_999" no_options) = Rejected e /\
    message e = "Section not found".
Proof.
  destruct (proj1 (apiFetch_rejects_non_2xx None not_found_net)
                  "/section/IPC_999" no_options
                  (mkResponse 404 "Not Found"
                     (Resolved (JObj [("detail", JStr "Section not found")])))
                  eq_refl eq_refl) as [e [Hout [Hdetail _]]].
  exists e. split; [exact Hout |].
  rewrite (Hdetail (JObj [("detail", JStr "Section not found")]) "Section not found");
    [reflexivity | reflexivity | reflexivity | discriminate].
Defined.

(** C2: [analyzeCase] performs one request, a POST to [/analyze] whose body
    is the serialization of an object with exactly the fields
    [case_description], [state] and [category], in this order;
    [case_description] is the first argument, [state] is "All India" when
    the argument is omitted, [category] is [null] when omitted.  The third
    part gives the text of the body in terms of the quoting.  The last part
    fixes the text itself: it opens with a brace and the key
    [case_description] in quotes and a colon, the string literal that
    follows reads back as the first argument, then come a comma, the key
    [state] and a literal that reads back as the state ("All India" when
    omitted), then a comma, the key [category] and either a literal that
    reads back as the category or the word [null], and the closing brace
    ends the text. *)
Theorem analyzeCase_request_body {E : JsEngine} (env : option string) (net : Network)
    (caseDescription : string) (category : option string) :
  let category_value := match category with Some c => JStr c | None => JNull end in
  let request_with := fun payload =>
    mkRequest (BASE_URL env ++ "/analyze") (Some "POST")
              [("Content-Type", "application/json")] (Some (JSON_stringify payload)) in
  trace (analyzeCase env net caseDescription None category) =
    [Fetch (request_with (JObj [("case_description", JStr caseDescription);
                                ("state", JStr "All India");
                                ("category", category_value)]))] /\
  (forall state : string,
      trace (analyzeCase env net caseDescription (Some state) category) =
        [Fetch (request_with (JObj [("case_description", JStr caseDescription);
                                    ("state", JStr state);
                                    ("category", category_value)]))]) /\
  (forall state : string,
      JSON_stringify (JObj [("case_description", JStr caseDescription);
                            ("state", JStr state);
                            ("category", category_value)])
      = "{" ++ json_quote "case_description" ++ ":" ++ json_quote caseDescription
            ++ "," ++ json_quote "state" ++ ":" ++ json_quote state
            ++ "," ++ json_quote "category" ++ ":"
            ++ match category with Some c => json_quote c | None => "null" end
            ++ "}") /\
  (forall state : option string,
      exists text after_key1 after_key2 after_key3,
        trace (analyzeCase env net caseDescription state category) =
          [Fetch (mkRequest (BASE_URL env ++ "/analyze") (Some "POST")
                            [("Content-Type", "application/json")] (Some text))] /\
        text = String "{" (String "034" ("case_description"
                                         ++ String "034" (String ":" after_key1))) /\
        read_json_string after_key1
        = Some (caseDescription,
                String "," (String "034" ("state" ++ String "034" (String ":" after_key2)))) /\
        read_json_string after_key2
        = Some (match state with Some s => s | None => "All India" end,
                String "," (String "034" ("category"
                                          ++ String "034" (String ":" after_key3)))) /\
        match category with
        | Some c => read_json_string after_key3 = Some (c, "}")
        | None => after_key3 = "null}"
        end).
Proof.
  intros category_value request_with. repeat split.
  - unfold analyzeCase. now rewrite apiFetch_trace.
  - intros state. unfold analyzeCase. now rewrite apiFetch_trace.
  - intros state. subst category_value.
    destruct category; cbn [JSON_stringify map join fst snd];
      rewrite !append_assoc; reflexivity.
  - intros state. unfold analyzeCase. rewrite apiFetch_trace.
    unfold init. cbn [opt_method opt_headers opt_body].
    rewrite analyze_body_text.
    eexists. eexists. eexists. eexists.
    split; [reflexivity |].
    split; [reflexivity |].
    split; [apply read_json_string_quote |].
    split; [apply read_json_string_quote |].
    destruct category as [c |]; cbn [JSON_stringify].
    + apply read_json_string_quote.
    + reflexivity.
Qed.

(** The body of one call, letter by letter: a description with a quote and
    a backslash, no state, the category "Civil". *)
Example analyzeCase_body_example :
  let q := String "034" "" in
  trace (analyzeCase None healthy_net ("he said " ++ q ++ "pay\now" ++ q) None (Some "Civil"))
  = [Fetch (mkRequest "http://localhost:8000/analyze" (Some "POST")
              [("Content-Type", "application/json")]
              (Some ("{" ++ q ++ "case_description" ++ q ++ ":"
                         ++ q ++ "he said \" ++ q ++ "pay\\now\" ++ q ++ q ++ ","
                         ++ q ++ "state" ++ q ++ ":" ++ q ++ "All India" ++ q ++ ","
                         ++ q ++ "category" ++ q ++ ":" ++ q ++ "Civil" ++ q ++ "}")))].
Proof. vm_compute. reflexivity. Qed.

(** C3: [analyze] of [useAnalyze] and [fetchGraph] of [useGraph] call
    [setLoading(true)] and [setError(null)], then perform the one request,
    then store the result with [setData] / [setGraphData] if the request
    resolved or the error's message with [setError] if it rejected, and call
    [setLoading(false)] last in both cases: [loading] is true when the
    request is sent and false when the call is over. *)
Theorem hooks_mirror_request_state {E : JsEngine} (env : option string) (net : Network) :
  (forall (c : string) (s cat : option string) (before : UseAnalyze.State),
      let request := analyzeCase env net c s cat in
      let finished := UseAnalyze.run before (trace (UseAnalyze.analyze env net c s cat)) in
      (exists req, trace request = [Fetch req] /\
         trace (UseAnalyze.analyze env net c s cat) =
           ([Call (setLoading true); Call (setError None); Fetch req]
            ++ match outcome request with
               | Resolved r => [Call (setData r)]
               | Rejected e => [Call (setError (Some (message e)))]
               end ++ [Call (setLoading false)])%list) /\
      UseAnalyze.loading
        (UseAnalyze.run before [Call (setLoading true); Call (setError None)]) = true /\
      UseAnalyze.loading finished = false /\
      match outcome request with
      | Resolved r => UseAnalyze.data finished = r
      | Rejected e => UseAnalyze.error finished = Some (message e)
      end) /\
  (forall (sectionId : string) (before : UseGraph.State),
      let request := getGraph env net sectionId in
      let finished := UseGraph.run before (trace (UseGraph.fetchGraph env net sectionId)) in
      (exists req, trace request = [Fetch req] /\
         trace (UseGraph.fetchGraph env net sectionId) =
           ([Call (setLoading true); Call (setError None); Fetch req]
            ++ match outcome request with
               | Resolved r => [Call (setGraphData r)]
               | Rejected e => [Call (setError (Some (message e)))]
               end ++ [Call (setLoading false)])%list) /\
      UseGraph.loading
        (UseGraph.run before [Call (setLoading true); Call (setError None)]) = true /\
      UseGraph.loading finished = false /\
      match outcome request with
      | Resolved r => UseGraph.graphData finished = r
      | Rejected e => UseGraph.error finished = Some (message e)
      end).
Proof.
  split.
  - intros c s cat before request finished. subst finished.
    rewrite analyze_unfold. fold request.
    assert (Htrace : exists req, trace request = [Fetch req]).
    { subst request. unfold analyzeCase. rewrite apiFetch_trace. eauto. }
    destruct Htrace as [req Hreq]. cbn [trace fst]. rewrite Hreq.
    split; [exists req; split; reflexivity |].
    split; [reflexivity |].
    destruct (outcome request); split; reflexivity.
  - intros sectionId before request finished. subst finished.
    rewrite fetchGraph_unfold. fold request.
    assert (Htrace : exists req, trace request = [Fetch req]).
    { subst request. unfold getGraph. rewrite apiFetch_trace. eauto. }
    destruct Htrace as [req Hreq]. cbn [trace fst]. rewrite Hreq.
    split; [exists req; split; reflexivity |].
    split; [reflexivity |].
    destruct (outcome request); split; reflexivity.
Qed.

(** C9: [analyze] of [useAnalyze] always resolves.  When the request
    resolves with [r] it resolves with [r]; when the request rejects with
    [e] it calls [setError(e.message)], which is the value of [error] when
    the call is over, and resolves with [null]. *)
Theorem analyze_never_throws {E : JsEngine} (env : option string) (net : Network)
    (c : string) (s cat : option string) :
  (exists v, outcome (UseAnalyze.analyze env net c s cat) = Resolved v) /\
  (forall r, outcome (analyzeCase env net c s cat) = Resolved r ->
             outcome (UseAnalyze.analyze env net c s cat) = Resolved r) /\
  (forall e, outcome (analyzeCase env net c s cat) = Rejected e ->
             outcome (UseAnalyze.analyze env net c s cat) = Resolved JNull /\
             In (Call (setError (Some (message e))))
                (trace (UseAnalyze.analyze env net c s cat)) /\
             forall before,
               UseAnalyze.error
                 (UseAnalyze.run before (trace (UseAnalyze.analyze env net c s cat)))
               = Some (message e)).
Proof.
  rewrite analyze_unfold. cbn [outcome trace fst snd].
  assert (Htrace : exists req, trace (analyzeCase env net c s cat) = [Fetch req]).
  { unfold analyzeCase. rewrite apiFetch_trace. eauto. }
  destruct Htrace as [req Hreq]. rewrite Hreq.
  destruct (outcome (analyzeCase env net c s cat)) as [r | e] eqn:Hout.
  - split; [eauto |]. split; [intros r' Hr; now injection Hr as <- |].
    intros e He. discriminate.
  - split; [eauto |]. split; [intros r Hr; discriminate |].
    intros e' He. injection He as <-.
    split; [reflexivity |]. split; [simpl; auto |]. reflexivity.
Qed.

(** [analyze_never_throws] on a backend that answers 500: the call resolves
    with [null]. *)
Lemma analyze_never_throws_witness :
  outcome (analyzeCase None broken_net "my landlord kept the deposit" None None)
    = Rejected (Error "HTTP 500") /\
  outcome (UseAnalyze.analyze None broken_net "my landlord kept the deposit" None None)
    = Resolved JNull.
Proof.
  split; [reflexivity |].
  apply (proj2 (proj2 (analyze_never_throws None broken_net
                         "my landlord kept the deposit" None None))
               (Error "HTTP 500") eq_refl).
Defined.

(** C10: a failing call of [analyze] calls no [setData]: its only setter
    calls are [setLoading] and [setError], and when it is over [data] is
    what it was before the call, [error] is the message and [loading] is
    false. *)
Theorem analyze_failure_keeps_data {E : JsEngine} (env : option string) (net : Network)
    (c : string) (s cat : option string) (e : JsError) (before : UseAnalyze.State) :
  outcome (analyzeCase env net c s cat) = Rejected e ->
  let events := trace (UseAnalyze.analyze env net c s cat) in
  (forall v, ~ In (Call (setData v)) events) /\
  (forall setter, In (Call setter) events ->
                  (exists b, setter = setLoading b) \/ (exists m, setter = setError m)) /\
  UseAnalyze.data (UseAnalyze.run before events) = UseAnalyze.data before /\
  UseAnalyze.error (UseAnalyze.run before events) = Some (message e) /\
  UseAnalyze.loading (UseAnalyze.run before events) = false.
Proof.
  intros Hout events. subst events.
  rewrite analyze_unfold. cbn [outcome trace fst snd].
  assert (Htrace : exists req, trace (analyzeCase env net c s cat) = [Fetch req]).
  { unfold analyzeCase. rewrite apiFetch_trace. eauto. }
  destruct Htrace as [req Hreq]. rewrite Hreq, Hout.
  repeat split.
  - intros v Hin. simpl in Hin.
    repeat (destruct Hin as [Hin | Hin]; [discriminate |]). exact Hin.
  - intros setter Hin. simpl in Hin.
    destruct Hin as [Hin | [Hin | [Hin | [Hin | [Hin | []]]]]];
      try discriminate; injection Hin as <-; eauto.
Qed.

(** [analyze_failure_keeps_data] after an earlier success: the first call
    stores the result, the second one fails and leaves it in [data] next to
    the new [error]; [reset] is what clears both. *)
Lemma analyze_failure_keeps_data_witness :
  let first := UseAnalyze.analyze None healthy_net "a cheque bounced" None None in
  let second := UseAnalyze.analyze None broken_net "a cheque bounced" None None in
  let after_first := UseAnalyze.run UseAnalyze.initial (trace first) in
  let after_second := UseAnalyze.run after_first (trace second) in
  let after_reset := UseAnalyze.run after_second (trace UseAnalyze.reset) in
  UseAnalyze.data after_first = JObj [("status", JStr "ok")] /\
  UseAnalyze.data after_second = JObj [("status", JStr "ok")] /\
  UseAnalyze.error after_second = Some "HTTP 500" /\
  after_reset = UseAnalyze.initial.
Proof.
  intros first second after_first after_second after_reset.
  destruct (analyze_failure_keeps_data None broken_net "a cheque bounced" None None
              (Error "HTTP 500") after_first eq_refl) as [_ [_ [Hdata [Herror _]]]].
  split; [reflexivity |].
  split; [exact Hdata |].
  split; [exact Herror | reflexivity].
Defined.

(** * Properties of the engine *)

Section MergeFacts.
Context {V : Type} (key : V -> string) (merge : V -> V -> V).
Hypothesis key_merge : forall a b, key (merge a b) = key a.

Lemma upsert_keys (v : V) (acc : list V) :
  map key (Engine.upsert key merge v acc) =
    if Engine.mentions (map key acc) (key v) then map key acc
    else (map key acc ++ [key v])%list.
Proof.
  unfold Engine.mentions.
  induction acc as [| x rest IH]; simpl; [reflexivity |].
  rewrite (String.eqb_sym (key v) (key x)).
  destruct (String.eqb (key x) (key v)) eqn:Hx; simpl.
  - now rewrite key_merge.
  - rewrite IH.
    destruct (existsb (String.eqb (key v)) (map key rest)); reflexivity.
Qed.

Lemma mentions_In (names : list string) (name : string) :
  Engine.mentions names name = true <-> In name names.
Proof.
  unfold Engine.mentions. rewrite existsb_exists. split.
  - intros [x [Hin Heq]]. apply String.eqb_eq in Heq. now subst.
  - intros Hin. exists name. split; [exact Hin | apply String.eqb_refl].
Qed.

Lemma upsert_key_In (v : V) (acc : list V) (k : string) :
  In k (map key (Engine.upsert key merge v acc)) <-> In k (map key acc) \/ k = key v.
Proof.
  rewrite upsert_keys.
  destruct (Engine.mentions (map key acc) (key v)) eqn:Hm.
  - apply mentions_In in Hm. split; [auto |]. intros [H | ->]; assumption.
  - rewrite in_app_iff. simpl. intuition.
Qed.

Lemma upsert_NoDup (v : V) (acc : list V) :
  NoDup (map key acc) -> NoDup (map key (Engine.upsert key merge v acc)).
Proof.
  intros Hnd. rewrite upsert_keys.
  destruct (Engine.mentions (map key acc) (key v)) eqn:Hm; [exact Hnd |].
  apply NoDup_app; [exact Hnd | repeat constructor; intros [] | ].
  intros k Hin [<- | []].
  apply mentions_In in Hin. congruence.
Qed.

Lemma upsert_In (v : V) (acc : list V) (x : V) :
  NoDup (map key acc) ->
  In x (Engine.upsert key merge v acc) ->
  (In x acc /\ key x <> key v)
  \/ (x = v /\ ~ In (key v) (map key acc))
  \/ (exists y, In y acc /\ key y = key v /\ x = merge y v).
Proof.
  induction acc as [| y rest IH]; simpl; intros Hnd Hin.
  - destruct Hin as [<- | []]. right. left. auto.
  - inversion Hnd as [| k ks Hk Hrest]; subst.
    destruct (String.eqb (key y) (key v)) eqn:Hy.
    + apply String.eqb_eq in Hy. destruct Hin as [<- | Hin].
      * right. right. exists y. auto.
      * left. split; [auto |]. intros Heq. apply Hk. rewrite Hy, <- Heq.
        now apply in_map.
    + apply String.eqb_neq in Hy. destruct Hin as [<- | Hin].
      * left. auto.
      * destruct (IH Hrest Hin) as [[H1 H2] | [[H1 H2] | [z [H1 [H2 H3]]]]].
        -- left. auto.
        -- right. left. split; [exact H1 |]. intros [H | H]; [congruence | auto].
        -- right. right. exists z. auto.
Qed.

Lemma merge_by_id_snoc (items : list V) (v : V) :
  Engine.merge_by_id key merge (items ++ [v]) =
  Engine.upsert key merge v (Engine.merge_by_id key merge items).
Proof. unfold Engine.merge_by_id. now rewrite fold_left_app. Qed.

Lemma merge_by_id_NoDup (items : list V) :
  NoDup (map key (Engine.merge_by_id key merge items)).
Proof.
  induction items as [| v items IH] using rev_ind.
  - constructor.
  - rewrite merge_by_id_snoc. now apply upsert_NoDup.
Qed.

Lemma merge_by_id_keys (items : list V) (k : string) :
  In k (map key (Engine.merge_by_id key merge items)) <-> In k (map key items).
Proof.
  induction items as [| v items IH] using rev_ind.
  - reflexivity.
  - rewrite merge_by_id_snoc, upsert_key_In, IH, map_app, in_app_iff. simpl. intuition.
Qed.

End MergeFacts.


Lemma for_each_Forall2 {A B} (f : A -> Engine.Result B) (l : list A) (bs : list B) :
  Engine.for_each f l = inr bs -> Forall2 (fun a b => f a = inr b) l bs.
Proof.
  revert bs. induction l as [| a l IH]; simpl; intros bs H.
  - injection H as <-. constructor.
  - unfold Engine.bind in H. destruct (f a) as [e | b] eqn:Hfa; [discriminate |].
    destruct (Engine.for_each f l) as [e | bs']; [discriminate |].
    injection H as <-. constructor; auto.
Qed.

Lemma clamp01_bounds (q : Q) : 0 <= Engine.clamp01 q <= 1.
Proof.
  unfold Engine.clamp01.
  destruct (Qle_bool q 0) eqn:H0; [split; [apply Qle_refl | discriminate] |].
  destruct (Qle_bool 1 q) eqn:H1; [split; [discriminate | apply Qle_refl] |].
  split; apply Qlt_le_weak, Qnot_le_lt; intros H; apply Qle_bool_iff in H; congruence.
Qed.

Lemma clamp01_proper (a b : Q) : a == b -> Engine.clamp01 a == Engine.clamp01 b.
Proof.
  intros Hab. unfold Engine.clamp01.
  rewrite (Qleb_comp a b Hab 0 0 (Qeq_refl 0)), (Qleb_comp 1 1 (Qeq_refl 1) a b Hab).
  destruct (Qle_bool b 0); [reflexivity |].
  destruct (Qle_bool 1 b); [reflexivity | exact Hab].
Qed.

Lemma miss_all_snoc (ps : list Q) (p : Q) :
  Engine.miss_all (ps ++ [p]) == Engine.miss_all ps * (1 - p).
Proof.
  induction ps as [| q ps IH]; simpl.
  - ring.
  - rewrite IH. ring.
Qed.

Lemma contributions_to_snoc (id : string) (cs : list Engine.Contribution)
    (c : Engine.Contribution) :
  Engine.contributions_to id (cs ++ [c]) =
    (Engine.contributions_to id cs
     ++ if String.eqb (Engine.outcome_id (Engine.reached c)) id then [c] else [])%list.
Proof. unfold Engine.contributions_to. rewrite filter_app. reflexivity. Qed.

Lemma aggregates_spec (cs : list Engine.Contribution) (a : Engine.Aggregate) :
  In a (Engine.aggregates cs) ->
  Engine.contributions_to (Engine.aggregate_key a) cs <> [] /\
  Engine.miss_product a
  == Engine.miss_all (map Engine.individual_probability (Engine.contributions_to (Engine.aggregate_key a) cs)).
Proof.
  revert a. induction cs as [| c cs IH] using rev_ind; intros a Hin.
  - destruct Hin.
  - unfold Engine.aggregates in Hin. rewrite map_app in Hin. cbn [map] in Hin.
    rewrite merge_by_id_snoc in Hin.
    apply upsert_In in Hin; [| apply merge_by_id_NoDup; intros; reflexivity].
    rewrite contributions_to_snoc.
    destruct Hin as [[Hold Hne] | [[-> Hnew] | [y [Hold [Hkey ->]]]]].
    + destruct (IH a Hold) as [Hnonempty Hprod].
      assert (Hc : String.eqb (Engine.outcome_id (Engine.reached c)) (Engine.aggregate_key a) = false).
      { apply String.eqb_neq. intros Heq. apply Hne. symmetry. exact Heq. }
      rewrite Hc, app_nil_r. auto.
    + assert (Hnone : Engine.contributions_to (Engine.aggregate_key (Engine.start_aggregate c)) cs = []).
      { destruct (Engine.contributions_to (Engine.aggregate_key (Engine.start_aggregate c)) cs)
          as [| c' rest] eqn:Hf; [reflexivity |].
        exfalso. apply Hnew.
        assert (Hc' : In c' (Engine.contributions_to (Engine.aggregate_key (Engine.start_aggregate c)) cs))
          by (rewrite Hf; left; reflexivity).
        unfold Engine.contributions_to in Hc'. apply filter_In in Hc'. destruct Hc' as [Hc' Hid].
        apply String.eqb_eq in Hid.
        apply (merge_by_id_keys Engine.aggregate_key Engine.merge_aggregate);
          [intros; reflexivity |].
        rewrite map_map. apply in_map_iff. exists c'. split; [exact Hid | exact Hc']. }
      rewrite Hnone.
      change (Engine.aggregate_key (Engine.start_aggregate c))
        with (Engine.outcome_id (Engine.reached c)).
      rewrite String.eqb_refl. simpl.
      split; [discriminate | ring].
    + destruct (IH y Hold) as [Hnonempty Hprod].
      change (Engine.aggregate_key (Engine.merge_aggregate y (Engine.start_aggregate c)))
        with (Engine.aggregate_key y).
      assert (Hc : String.eqb (Engine.outcome_id (Engine.reached c)) (Engine.aggregate_key y) = true).
      { apply String.eqb_eq. symmetry. exact Hkey. }
      rewrite Hc. split.
      * intros Habs. apply app_eq_nil in Habs. destruct Habs as [_ Habs]. discriminate.
      * rewrite map_app. simpl. rewrite miss_all_snoc, <- Hprod. reflexivity.
Qed.

Lemma outcome_edges_from_plan (store : Engine.Store) (plan : list Engine.PlannedAction)
    (contributions : list Engine.Contribution) (c : Engine.Contribution) :
  Engine.outcome_edges store plan = inr contributions ->
  In c contributions ->
  exists a edges,
    In a plan /\
    Engine.outcomes_of store (Engine.action_id (Engine.action a)) = inr edges /\
    In (Engine.reached c, Engine.individual_probability c) edges /\
    Engine.via c = Engine.action_name (Engine.action a).
Proof.
  unfold Engine.outcome_edges, Engine.bind, Engine.ret.
  destruct (Engine.for_each _ plan) as [e | found] eqn:Hfound; [discriminate |].
  intros Heq Hin. injection Heq as <-.
  apply for_each_Forall2 in Hfound.
  apply in_concat in Hin. destruct Hin as [group [Hgroup Hc]].
  induction Hfound as [| a g plan' found' Hag Hrest IH]; [destruct Hgroup |].
  destruct Hgroup as [-> | Hgroup].
  - unfold Engine.bind, Engine.ret in Hag.
    destruct (Engine.outcomes_of store (Engine.action_id (Engine.action a)))
      as [e | edges] eqn:Hedges; [discriminate |].
    injection Hag as <-. apply in_map_iff in Hc. destruct Hc as [[o p] [<- Hop]].
    exists a, edges. simpl. auto.
  - destruct (IH Hgroup) as [a' [edges [Ha' H]]]. exists a', edges. simpl. auto.
Qed.

Lemma outcome_edges_exact (store : Engine.Store) (plan : list Engine.PlannedAction)
    (contributions : list Engine.Contribution) :
  Engine.outcome_edges store plan = inr contributions ->
  exists answers,
    Forall2 (fun a edges =>
               Engine.outcomes_of store (Engine.action_id (Engine.action a)) = inr edges)
            plan answers /\
    contributions
    = concat (map (fun ae =>
                     map (fun oe => {| Engine.reached := fst oe;
                                       Engine.individual_probability := snd oe;
                                       Engine.via :=
                                         Engine.action_name (Engine.action (fst ae)) |})
                         (snd ae))
                  (combine plan answers)).
Proof.
  unfold Engine.outcome_edges, Engine.bind, Engine.ret.
  destruct (Engine.for_each _ plan) as [e | found] eqn:Hfound; [discriminate |].
  intros Heq. injection Heq as <-.
  apply for_each_Forall2 in Hfound.
  induction Hfound as [| a g plan' found' Hag Hrest IH].
  - exists []. split; [constructor | reflexivity].
  - destruct IH as [answers [Hall Hcat]].
    unfold Engine.bind, Engine.ret in Hag.
    destruct (Engine.outcomes_of store (Engine.action_id (Engine.action a)))
      as [e | edges] eqn:Hedges; [discriminate |].
    injection Hag as <-.
    exists (edges :: answers). split; [constructor; assumption |].
    cbn [combine map concat fst snd]. now rewrite Hcat.
Qed.

Lemma probabilities_of_edges (id : string) (plan : list Engine.PlannedAction)
    (answers : list (list (Engine.Outcome * Q))) :
  length plan = length answers ->
  map Engine.individual_probability
      (Engine.contributions_to id
         (concat (map (fun ae =>
                         map (fun oe => {| Engine.reached := fst oe;
                                           Engine.individual_probability := snd oe;
                                           Engine.via :=
                                             Engine.action_name (Engine.action (fst ae)) |})
                             (snd ae))
                      (combine plan answers))))
  = map snd (filter (fun oe => String.eqb (Engine.outcome_id (fst oe)) id)
                    (concat answers)).
Proof.
  revert answers. induction plan as [| a plan IH]; intros [| edges answers] Hlen;
    try discriminate; [reflexivity |].
  cbn [combine map concat fst snd]. unfold Engine.contributions_to in *.
  rewrite !filter_app, !map_app, IH by (simpl in Hlen; lia).
  f_equal. clear. induction edges as [| oe edges IHe]; [reflexivity |].
  cbn [map filter Engine.reached]. destruct (String.eqb _ id); cbn [map]; now rewrite IHe.
Qed.

Section OrderingFacts.
Context {A : Type} (precedes : A -> A -> bool).

Lemma insert_ordered_In (x y : A) (l : list A) :
  In y (Engine.insert_ordered precedes x l) <-> y = x \/ In y l.
Proof.
  induction l as [| z l IH]; simpl.
  - intuition.
  - destruct (precedes x z); simpl; [intuition |]. rewrite IH. intuition.
Qed.

Lemma order_by_In (y : A) (l : list A) :
  In y (Engine.order_by precedes l) <-> In y l.
Proof.
  unfold Engine.order_by.
  induction l as [| x l IH] using rev_ind; [reflexivity |].
  rewrite fold_left_app. simpl. rewrite insert_ordered_In, IH, in_app_iff. simpl.
  intuition.
Qed.

End OrderingFacts.

Lemma section_matcher_scores (cfg : Engine.Config) (store : Engine.Store)
    (input : Engine.AnalysisInput) (matches : list Engine.ScoredMatch) :
  Engine.section_matcher cfg store input = inr matches ->
  Engine.case_description input <> "" /\
  forall m, In m matches -> 0 <= Engine.relevance_score m <= 1.
Proof.
  unfold Engine.section_matcher, Engine.bind, Engine.ret, Engine.fail.
  destruct (String.eqb (Engine.case_description input) "") eqn:Hempty; [discriminate |].
  destruct (Engine.searchByText store (Engine.case_description input)) as [e | hits];
    [discriminate |].
  intros H. injection H as <-.
  split; [now apply String.eqb_neq |].
  intros m Hm. apply order_by_In, in_map_iff in Hm. destruct Hm as [hit [<- _]].
  apply clamp01_bounds.
Qed.

Lemma ratio_bounds (a b : nat) : (a <= b)%nat -> 0 <= Engine.ratio a b <= 1.
Proof.
  intros Hab. unfold Engine.ratio. destruct b as [| b].
  - assert (a = 0%nat) by lia. subst. split; discriminate.
  - split.
    + apply Qle_shift_div_l; [unfold Qlt; simpl; lia |].
      unfold Qle; simpl; lia.
    + apply Qle_shift_div_r; [unfold Qlt; simpl; lia |].
      unfold Qle; simpl; lia.
Qed.

Lemma stage_fraction_bounds (trace : list Engine.ReasoningStep) :
  0 <= Engine.stage_fraction trace <= 1.
Proof. apply ratio_bounds, filter_length_le. Qed.

Lemma unambiguity_bounds (r : Engine.StepResult) : 0 <= Engine.unambiguity r <= 1.
Proof.
  unfold Engine.unambiguity. destruct (Nat.eqb (Engine.produced r) 0).
  - split; discriminate.
  - apply ratio_bounds. lia.
Qed.

Lemma normalized_combination_bounds (w1 w2 w3 a b c : Q) :
  0 <= w1 -> 0 <= w2 -> 0 <= w3 ->
  0 <= a <= 1 -> 0 <= b <= 1 -> 0 <= c <= 1 ->
  0 <= (w1 * a + w2 * b + w3 * c) / (w1 + w2 + w3) <= 1.
Proof.
  intros H1 H2 H3 [Ha0 Ha1] [Hb0 Hb1] [Hc0 Hc1].
  assert (Hwa : 0 <= w1 * a <= w1) by (split; nra).
  assert (Hwb : 0 <= w2 * b <= w2) by (split; nra).
  assert (Hwc : 0 <= w3 * c <= w3) by (split; nra).
  destruct (Qlt_le_dec 0 (w1 + w2 + w3)) as [Hpos | Hzero].
  - split.
    + apply Qle_shift_div_l; [exact Hpos | lra].
    + apply Qle_shift_div_r; [exact Hpos | lra].
  - assert (Hnum : w1 * a + w2 * b + w3 * c == 0) by lra.
    rewrite Hnum. unfold Qdiv. rewrite Qmult_0_l. split; [apply Qle_refl | discriminate].
Qed.

Lemma record_step_indices (ty : Engine.StepType) (text : string) (r : Engine.StepResult)
    (trace : list Engine.ReasoningStep) :
  map Engine.step trace = seq 1 (length trace) ->
  map Engine.step (Engine.record_step ty text r trace)
  = seq 1 (length (Engine.record_step ty text r trace)).
Proof.
  intros H. unfold Engine.record_step.
  rewrite map_app, length_app, H. simpl.
  rewrite Nat.add_1_r, seq_S. reflexivity.
Qed.

(** C4: the Outcome Synthesizer reports every outcome reached from the plan
    once, and no other.  The probability of an entry is
    [1 - prod (1 - p_i)], clamped to [0,1], over the individual
    probabilities of the edges that reach it, of which there is at least
    one, each followed from a planned action; two edges with probabilities
    0.5 and 0.4 give 0.7.  The edges counted are all the LEADS_TO_OUTCOME
    edges that the store gives for the planned actions, each once: the
    product is taken over the store's own answers, and every edge of every
    planned action has its outcome reported. *)
Theorem outcome_synthesizer_combines (store : Engine.Store)
    (plan : list Engine.PlannedAction) (contributions : list Engine.Contribution) :
  Engine.outcome_edges store plan = inr contributions ->
  exists outcomes answers,
    Engine.outcome_synthesizer store plan = inr outcomes /\
    NoDup (map (fun o => Engine.outcome_id (Engine.outcome o)) outcomes) /\
    (forall o, In o outcomes ->
       let reaching := Engine.contributions_to (Engine.outcome_id (Engine.outcome o)) contributions in
       reaching <> [] /\
       Engine.probability o
       == Engine.clamp01 (1 - Engine.miss_all (map Engine.individual_probability reaching)) /\
       0 <= Engine.probability o <= 1 /\
       (forall c1 c2, reaching = [c1; c2] ->
                      Engine.individual_probability c1 == 1 # 2 ->
                      Engine.individual_probability c2 == 2 # 5 ->
                      Engine.probability o == 7 # 10)) /\
    (forall c, In c contributions ->
       (exists o, In o outcomes /\
                  Engine.outcome_id (Engine.outcome o) = Engine.outcome_id (Engine.reached c)) /\
       (exists a edges,
           In a plan /\
           Engine.outcomes_of store (Engine.action_id (Engine.action a)) = inr edges /\
           In (Engine.reached c, Engine.individual_probability c) edges)) /\
    Forall2 (fun a edges =>
               Engine.outcomes_of store (Engine.action_id (Engine.action a)) = inr edges)
            plan answers /\
    (forall o, In o outcomes ->
       let edges_to := filter (fun oe => String.eqb (Engine.outcome_id (fst oe))
                                                    (Engine.outcome_id (Engine.outcome o)))
                              (concat answers) in
       edges_to <> [] /\
       Engine.probability o == Engine.clamp01 (1 - Engine.miss_all (map snd edges_to))) /\
    (forall a edges oe,
       In a plan ->
       Engine.outcomes_of store (Engine.action_id (Engine.action a)) = inr edges ->
       In oe edges ->
       In {| Engine.reached := fst oe; Engine.individual_probability := snd oe;
             Engine.via := Engine.action_name (Engine.action a) |} contributions /\
       exists o, In o outcomes /\
                 Engine.outcome_id (Engine.outcome o) = Engine.outcome_id (fst oe)).
Proof.
  intros Hedges.
  destruct (outcome_edges_exact store plan contributions Hedges) as [answers [Hall Hcat]].
  exists (Engine.synthesize contributions), answers.
  split; [unfold Engine.outcome_synthesizer; now rewrite Hedges |].
  assert (Hentry : forall c, In c contributions ->
            exists o, In o (Engine.synthesize contributions) /\
                      Engine.outcome_id (Engine.outcome o)
                      = Engine.outcome_id (Engine.reached c)).
  { intros c Hc. unfold Engine.synthesize.
    assert (Hk : In (Engine.outcome_id (Engine.reached c))
                    (map Engine.aggregate_key (Engine.aggregates contributions))).
    { apply (merge_by_id_keys Engine.aggregate_key Engine.merge_aggregate);
        [intros; reflexivity |].
      rewrite map_map. apply in_map_iff. exists c. auto. }
    apply in_map_iff in Hk. destruct Hk as [a [Hkey Ha]].
    exists (Engine.finish_aggregate a). split; [now apply in_map | exact Hkey]. }
  assert (Hformula : forall o, In o (Engine.synthesize contributions) ->
            Engine.contributions_to (Engine.outcome_id (Engine.outcome o)) contributions <> [] /\
            Engine.probability o
            == Engine.clamp01
                 (1 - Engine.miss_all
                        (map Engine.individual_probability
                             (Engine.contributions_to (Engine.outcome_id (Engine.outcome o))
                                                      contributions)))).
  { intros o Ho. unfold Engine.synthesize in Ho.
    apply in_map_iff in Ho. destruct Ho as [a [<- Ha]].
    destruct (aggregates_spec contributions a Ha) as [Hnonempty Hprod].
    cbn [Engine.finish_aggregate Engine.outcome Engine.probability].
    change (Engine.outcome_id (Engine.aggregated a)) with (Engine.aggregate_key a).
    split; [exact Hnonempty |]. apply clamp01_proper. now rewrite Hprod. }
  split; [| split; [| split; [| split; [| split]]]].
  - unfold Engine.synthesize. rewrite map_map.
    apply (merge_by_id_NoDup Engine.aggregate_key Engine.merge_aggregate).
    intros; reflexivity.
  - intros o Ho. destruct (Hformula o Ho) as [Hnonempty Hp].
    split; [exact Hnonempty |]. split; [exact Hp |].
    split; [unfold Engine.synthesize in Ho; apply in_map_iff in Ho;
            destruct Ho as [a [<- _]]; apply clamp01_bounds |].
    intros c1 c2 Hreach H1 H2. rewrite Hp, Hreach.
    transitivity (Engine.clamp01 (1 - (1 - (1 # 2)) * ((1 - (2 # 5)) * 1)));
      [| reflexivity].
    apply clamp01_proper. simpl. rewrite H1, H2. reflexivity.
  - intros c Hc. split; [exact (Hentry c Hc) |].
    destruct (outcome_edges_from_plan store plan contributions c Hedges Hc)
      as [a [edges [Ha [He [Hin _]]]]].
    exists a, edges. auto.
  - exact Hall.
  - intros o Ho. destruct (Hformula o Ho) as [Hnonempty Hp].
    pose proof (probabilities_of_edges (Engine.outcome_id (Engine.outcome o)) plan answers
                  (Forall2_length Hall)) as Hsame.
    rewrite <- Hcat in Hsame. split.
    + intros Hnil. rewrite Hnil in Hsame. apply map_eq_nil in Hsame. contradiction.
    + now rewrite <- Hsame.
  - intros a edges oe Ha He Hoe.
    assert (Hin : In {| Engine.reached := fst oe; Engine.individual_probability := snd oe;
                        Engine.via := Engine.action_name (Engine.action a) |} contributions).
    { rewrite Hcat. clear Hcat Hentry Hformula Hedges.
      induction Hall as [| a' edges' plan' answers' Hae Hrest IH]; [destruct Ha |].
      cbn [combine map concat fst snd]. apply in_or_app.
      destruct Ha as [-> | Ha].
      - left. rewrite He in Hae. injection Hae as <-.
        apply in_map_iff. exists oe. auto.
      - right. apply IH. exact Ha. }
    split; [exact Hin |]. exact (Hentry _ Hin).
Qed.

(** [outcome_synthesizer_combines] on the sample graph: the plan's two
    actions reach the same outcome with probabilities 0.5 and 0.4, and the
    one entry reported has probability 0.7. *)
Lemma outcome_synthesizer_combines_witness :
  length Sample.plan = 2%nat /\
  exists o,
    Engine.outcome_synthesizer Sample.store Sample.plan = inr [o] /\
    Engine.probability o == 7 # 10.
Proof.
  split; [reflexivity |].
  destruct (outcome_synthesizer_combines Sample.store Sample.plan
              [{| Engine.reached := Sample.money_recovered;
                  Engine.individual_probability := 1 # 2;
                  Engine.via := "File an FIR" |};
               {| Engine.reached := Sample.money_recovered;
                  Engine.individual_probability := 2 # 5;
                  Engine.via := "File a recovery suit" |}]
              eq_refl) as [outcomes [answers [Hrun [_ [Heach _]]]]].
  pose proof Hrun as Hshape. vm_compute in Hshape. injection Hshape as <-.
  eexists. split; [exact Hrun |].
  destruct (Heach _ (or_introl eq_refl)) as [_ [_ [_ Hpair]]].
  eapply Hpair; reflexivity.
Defined.

(** C6: on the empty case description the Section Matcher fails with
    InvalidInput and the analysis ends there with this error, whatever the
    store, the state and the category are: no AnalysisResult is returned.
    On the client side [analyzeCase] forwards the empty description as it
    is, and once the backend answers it with a 4xx status the call rejects:
    [analyze] of [useAnalyze] stores the message in [error], leaves [data]
    as it was and returns [null]. *)
Theorem empty_description_is_invalid (cfg : Engine.Config) (store : Engine.Store)
    (state category : option string) :
  let input := {| Engine.case_description := ""; Engine.state := state;
                  Engine.input_category := category |} in
  (Engine.section_matcher cfg store input = inl Engine.InvalidInput /\
   Engine.analyze cfg store input = inl Engine.InvalidInput /\
   forall r, Engine.analyze cfg store input <> inr r) /\
  (forall (E : JsEngine) (env : option string) (net : Network) (res : Response),
      (forall req, In (Fetch req) (trace (analyzeCase env net "" state category)) ->
                   net req = Resolved res) ->
      (400 <= status res <= 499)%N ->
      exists e,
        outcome (analyzeCase env net "" state category) = Rejected e /\
        outcome (UseAnalyze.analyze env net "" state category) = Resolved JNull /\
        forall before,
          let after :=
            UseAnalyze.run before (trace (UseAnalyze.analyze env net "" state category)) in
          UseAnalyze.data after = UseAnalyze.data before /\
          UseAnalyze.error after = Some (message e)).
Proof.
  intros input. split; [repeat split; intros r H; discriminate H |].
  intros E env net res Hnet Hstatus.
  assert (Hok : ok res = false).
  { unfold ok. apply andb_false_iff. right. apply N.leb_gt. lia. }
  assert (Hrej : exists e, outcome (analyzeCase env net "" state category) = Rejected e).
  { unfold analyzeCase in *. rewrite apiFetch_trace in Hnet.
    rewrite (apiFetch_not_ok env net _ _ res (Hnet _ (or_introl eq_refl)) Hok).
    destruct (get_property _ "detail") as [te | d]; [eauto |].
    destruct (toString _); eauto. }
  destruct Hrej as [e He]. exists e. split; [exact He |].
  rewrite analyze_unfold. cbn [outcome trace fst snd]. rewrite He.
  split; [reflexivity |].
  intros before.
  assert (Htrace : exists req, trace (analyzeCase env net "" state category) = [Fetch req]).
  { unfold analyzeCase. rewrite apiFetch_trace. eauto. }
  destruct Htrace as [req ->]. split; reflexivity.
Qed.

(** [empty_description_is_invalid] with a backend that answers the empty
    description with status 400 and a [detail]. *)
Lemma empty_description_is_invalid_witness :
  Engine.analyze Sample.config Sample.store
    {| Engine.case_description := ""; Engine.state := None;
       Engine.input_category := None |} = inl Engine.InvalidInput /\
  exists e,
    outcome (analyzeCase None invalid_input_net "" None None) = Rejected e /\
    outcome (UseAnalyze.analyze None invalid_input_net "" None None) = Resolved JNull.
Proof.
  destruct (empty_description_is_invalid Sample.config Sample.store None None)
    as [[_ [Hrun _]] Hclient].
  split; [exact Hrun |].
  destruct (Hclient integer_engine None invalid_input_net
              (mkResponse 400 "Bad Request"
                 (Resolved (JObj [("detail", JStr "case_description must not be empty")]))))
    as [e [He [Hnull _]]].
  - intros req _. reflexivity.
  - simpl. lia.
  - exists e. auto.
Defined.

(** C7: every AnalysisResult that the analysis returns has a confidence
    score in [0,1], for any confidence weights that are not negative, and a
    reasoning trace whose step indices are 1, 2, ..., N in this order. *)
Theorem confidence_and_trace_indices (cfg : Engine.Config) (store : Engine.Store)
    (input : Engine.AnalysisInput) (r : Engine.AnalysisResult) :
  0 <= Engine.top_weight cfg ->
  0 <= Engine.stage_weight cfg ->
  0 <= Engine.ambiguity_weight cfg ->
  Engine.analyze cfg store input = inr r ->
  0 <= Engine.confidence_score r <= 1 /\
  map Engine.step (Engine.reasoning_trace r) = seq 1 (length (Engine.reasoning_trace r)).
Proof.
  intros Hw1 Hw2 Hw3. unfold Engine.analyze, Engine.bind, Engine.ret.
  destruct (Engine.section_matcher cfg store input) as [e | matches] eqn:Hmatch;
    [discriminate |].
  destruct (Engine.context_aggregator store matches) as [e | context]; [discriminate |].
  destruct (Engine.action_planner store matches) as [e | plan]; [discriminate |].
  destruct (Engine.outcome_synthesizer store plan) as [e | outcomes]; [discriminate |].
  intros H. injection H as <-.
  cbn [Engine.confidence_score Engine.reasoning_trace]. split.
  - unfold Engine.confidence.
    apply normalized_combination_bounds; try assumption.
    + cbn [Engine.compile_trace Engine.record_step app find Engine.is_match_step
           Engine.step_type Engine.result].
      destruct matches as [| top others]; [split; [apply Qle_refl | discriminate] |].
      apply (proj2 (section_matcher_scores cfg store input _ Hmatch)). now left.
    + apply stage_fraction_bounds.
    + apply unambiguity_bounds.
  - unfold Engine.compile_trace. repeat apply record_step_indices. reflexivity.
Qed.

(** [confidence_and_trace_indices] on the sample graph: the analysis of the
    cheating case returns a result with four steps and a confidence score
    between 0 and 1. *)
Lemma confidence_and_trace_indices_witness :
  exists r,
    Engine.analyze Sample.config Sample.store Sample.cheated = inr r /\
    map Engine.step (Engine.reasoning_trace r) = [1; 2; 3; 4]%nat /\
    0 <= Engine.confidence_score r <= 1.
Proof.
  eexists. split; [vm_compute; reflexivity |].
  split; [reflexivity |].
  eapply (confidence_and_trace_indices Sample.config Sample.store Sample.cheated).
  - discriminate.
  - discriminate.
  - discriminate.
  - vm_compute. reflexivity.
Defined.

Lemma filter_none {A} (f : A -> bool) (l : list A) :
  (forall a, In a l -> f a = false) -> filter f l = [].
Proof.
  induction l as [| a l IH]; simpl; intros H; [reflexivity |].
  rewrite (H a (or_introl eq_refl)). apply IH. intros b Hb. apply H. now right.
Qed.

(** C8: when the description is not empty and none of the sections that the
    text search returns for it passes the filters of the Section Matcher (in
    particular when the search returns none), the analysis returns a result,
    not an error: its matched_sections, action_plan (and case types,
    evidence checklist and outcome probabilities) are empty and its
    confidence score is 0. *)
Theorem no_match_gives_empty_result (cfg : Engine.Config) (store : Engine.Store)
    (input : Engine.AnalysisInput) (hits : list (Engine.LegalSection * Q)) :
  Engine.case_description input <> "" ->
  Engine.searchByText store (Engine.case_description input) = inr hits ->
  (forall hit, In hit hits ->
     Engine.applies_in (match Engine.state input with Some s => s | None => "All India" end)
                       (fst hit)
     && Engine.in_category (Engine.input_category input) (fst hit) = false) ->
  exists r,
    Engine.analyze cfg store input = inr r /\
    Engine.matched_sections r = [] /\
    Engine.action_plan r = [] /\
    Engine.case_types r = [] /\
    Engine.evidence_checklist r = [] /\
    Engine.outcome_probabilities r = [] /\
    Engine.confidence_score r == 0.
Proof.
  intros Hne Hsearch Hnone.
  assert (Hmatch : Engine.section_matcher cfg store input = inr []).
  { unfold Engine.section_matcher. apply String.eqb_neq in Hne. rewrite Hne, Hsearch.
    cbn [Engine.bind]. rewrite filter_none by exact Hnone. reflexivity. }
  unfold Engine.analyze. rewrite Hmatch.
  eexists. split; [reflexivity |]. repeat split.
  cbn. unfold Engine.confidence, Engine.stage_fraction, Engine.unambiguity, Engine.ratio.
  cbn. unfold Qdiv. ring.
Qed.

(** [no_match_gives_empty_result] on the sample graph, for a description
    that the text index does not know. *)
Lemma no_match_gives_empty_result_witness :
  exists r,
    Engine.analyze Sample.config Sample.store Sample.unrelated = inr r /\
    Engine.matched_sections r = [] /\
    Engine.action_plan r = [] /\
    Engine.confidence_score r == 0.
Proof.
  destruct (no_match_gives_empty_result Sample.config Sample.store Sample.unrelated [])
    as [r [Hrun [Hm [Hp [_ [_ [_ Hc]]]]]]].
  - discriminate.
  - reflexivity.
  - intros hit [].
  - exists r. auto.
Defined.





(** * Further properties of the client *)

Section HookTraces.
Context {E : JsEngine}.
Variable env : option string.
Variable net : Network.

Lemma analyzeCase_trace (c : string) (s cat : option string) :
  exists req, trace (analyzeCase env net c s cat) = [Fetch req].
Proof. unfold analyzeCase. rewrite apiFetch_trace. eauto. Qed.

Lemma getGraph_trace (sectionId : string) :
  exists req, trace (getGraph env net sectionId) = [Fetch req].
Proof. unfold getGraph. rewrite apiFetch_trace. eauto. Qed.

End HookTraces.

(** X1: once [fetch] has resolved with a response, [apiFetch] resolves
    exactly when the status is between 200 and 299 and the body parses as
    JSON, and then with the parsed body; on such a status a body that is not
    JSON makes it reject with the error of [json()] itself. *)
Theorem apiFetch_resolves_iff {E : JsEngine} (env : option string) (net : Network)
    (path : string) (options : Options) (res : Response) :
  net (init env path options) = Resolved res ->
  (ok res = true -> outcome (apiFetch env net path options) = json res) /\
  (forall v, outcome (apiFetch env net path options) = Resolved v <->
             (200 <= status res <= 299)%N /\ json res = Resolved v).
Proof.
  intros Hnet.
  assert (Hok : ok res = true -> outcome (apiFetch env net path options) = json res).
  { intros Hok. unfold apiFetch, fetch, bind, await, outcome. rewrite Hnet, Hok. simpl.
    destruct (json res); reflexivity. }
  split; [exact Hok |].
  intros v. destruct (ok res) eqn:Hres.
  - rewrite (Hok eq_refl). unfold ok in Hres. apply andb_true_iff in Hres.
    destruct Hres as [Hlo Hhi]. apply N.leb_le in Hlo, Hhi. tauto.
  - rewrite (apiFetch_not_ok env net path options res Hnet Hres). split.
    + destruct (get_property _ "detail") as [te | d]; [discriminate |].
      destruct (toString _); discriminate.
    + intros [[Hlo Hhi] _]. unfold ok in Hres. apply andb_false_iff in Hres.
      destruct Hres as [Hres | Hres]; apply N.leb_gt in Hres; lia.
Qed.

(** [apiFetch_resolves_iff] on a backend that answers 200 with a page that
    is not JSON: the call rejects with the parser's error. *)
Lemma apiFetch_resolves_iff_witness :
  outcome (apiFetch None html_net "/health" no_options)
  = Rejected (mkError "SyntaxError" "Unexpected token < in JSON").
Proof.
  apply (proj1 (apiFetch_resolves_iff None html_net "/health" no_options
                  (mkResponse 200 "OK"
                     (Rejected (mkError "SyntaxError" "Unexpected token < in JSON")))
                  eq_refl)).
  reflexivity.
Defined.

(** X2: when [fetch] itself rejects (no response at all), [apiFetch] has
    made its one request and rejects with the same error object; [analyze]
    then stores the message of that error in [error], leaves [data] alone
    and resolves with [null]. *)
Theorem fetch_failure_propagates {E : JsEngine} (env : option string) (net : Network)
    (e : JsError) :
  (forall path options,
      net (init env path options) = Rejected e ->
      apiFetch env net path options = ([Fetch (init env path options)], Rejected e)) /\
  (forall c s cat before,
      (forall req, In (Fetch req) (trace (analyzeCase env net c s cat)) ->
                   net req = Rejected e) ->
      outcome (analyzeCase env net c s cat) = Rejected e /\
      outcome (UseAnalyze.analyze env net c s cat) = Resolved JNull /\
      UseAnalyze.run before (trace (UseAnalyze.analyze env net c s cat))
      = UseAnalyze.mkState (UseAnalyze.data before) false (Some (message e))).
Proof.
  assert (Hfetch : forall path options,
             net (init env path options) = Rejected e ->
             apiFetch env net path options = ([Fetch (init env path options)], Rejected e)).
  { intros path options Hnet. unfold apiFetch, fetch, bind. now rewrite Hnet. }
  split; [exact Hfetch |].
  intros c s cat before Hnet.
  assert (Hout : outcome (analyzeCase env net c s cat) = Rejected e).
  { unfold analyzeCase in *. rewrite apiFetch_trace in Hnet.
    now rewrite (Hfetch _ _ (Hnet _ (or_introl eq_refl))). }
  split; [exact Hout |].
  rewrite analyze_unfold. cbn [outcome trace fst snd]. rewrite Hout.
  split; [reflexivity |].
  destruct (analyzeCase_trace env net c s cat) as [req ->]. reflexivity.
Qed.

(** [fetch_failure_propagates] with the network down. *)
Lemma fetch_failure_propagates_witness :
  UseAnalyze.run UseAnalyze.initial
    (trace (UseAnalyze.analyze None offline_net "a cheque bounced" None None))
  = UseAnalyze.mkState JNull false (Some "Failed to fetch").
Proof.
  apply (proj2 (fetch_failure_propagates None offline_net
                  (mkError "TypeError" "Failed to fetch"))
               "a cheque bounced" None None UseAnalyze.initial).
  intros req _. reflexivity.
Defined.

(** X3: the state of [useAnalyze] around a call of [analyze].  While the
    request is in flight [loading] is true, [error] is cleared and [data] is
    still the old one.  The state the call leaves behind is fixed by how the
    request settled: the result, not loading and no error after a success,
    the message and not loading after a failure, with [data] as before.  So
    calling again with the same answer changes nothing more. *)
Theorem analyze_final_state {E : JsEngine} (env : option string) (net : Network)
    (c : string) (s cat : option string) (before : UseAnalyze.State) :
  let events := trace (UseAnalyze.analyze env net c s cat) in
  UseAnalyze.run before (until_fetch events)
  = UseAnalyze.mkState (UseAnalyze.data before) true None /\
  UseAnalyze.run before events
  = match outcome (analyzeCase env net c s cat) with
    | Resolved r => UseAnalyze.mkState r false None
    | Rejected e => UseAnalyze.mkState (UseAnalyze.data before) false (Some (message e))
    end /\
  UseAnalyze.run (UseAnalyze.run before events) events = UseAnalyze.run before events.
Proof.
  intros events. subst events. rewrite analyze_unfold. cbn [trace fst].
  destruct (analyzeCase_trace env net c s cat) as [req ->].
  destruct (outcome (analyzeCase env net c s cat)); repeat split.
Qed.

(** X4: [fetchGraph] of [useGraph] always resolves: with the graph after
    storing it in [graphData] and clearing [error], or with [null] after
    storing the error's message, in which case it calls no [setGraphData]
    and [graphData] stays what it was. *)
Theorem fetchGraph_settles {E : JsEngine} (env : option string) (net : Network)
    (sectionId : string) (before : UseGraph.State) :
  let call := UseGraph.fetchGraph env net sectionId in
  match outcome (getGraph env net sectionId) with
  | Resolved r =>
      outcome call = Resolved r /\
      UseGraph.run before (trace call) = UseGraph.mkState r false None
  | Rejected e =>
      outcome call = Resolved JNull /\
      UseGraph.run before (trace call)
      = UseGraph.mkState (UseGraph.graphData before) false (Some (message e)) /\
      forall v, ~ In (Call (setGraphData v)) (trace call)
  end.
Proof.
  intros call. subst call. rewrite fetchGraph_unfold. cbn [outcome trace fst snd].
  destruct (getGraph_trace env net sectionId) as [req ->].
  destruct (outcome (getGraph env net sectionId)) as [r | e].
  - split; reflexivity.
  - split; [reflexivity |]. split; [reflexivity |].
    intros v Hin. simpl in Hin.
    repeat (destruct Hin as [Hin | Hin]; [discriminate |]). exact Hin.
Qed.

(** X5: what the hooks show for an error answer: when the backend answers
    the request with a status outside 200..299 and a JSON body whose
    [detail] is a non-empty string, [error] is exactly that string after
    [analyze] and after [fetchGraph], and both return [null]. *)
Theorem hooks_show_backend_detail {E : JsEngine} (env : option string) (net : Network)
    (res : Response) (body : JValue) (d : string) :
  ok res = false ->
  json res = Resolved body ->
  get_property body "detail" = inr (Some (JStr d)) ->
  d <> "" ->
  (forall c s cat before,
      (forall req, In (Fetch req) (trace (analyzeCase env net c s cat)) ->
                   net req = Resolved res) ->
      outcome (UseAnalyze.analyze env net c s cat) = Resolved JNull /\
      UseAnalyze.error
        (UseAnalyze.run before (trace (UseAnalyze.analyze env net c s cat))) = Some d) /\
  (forall sectionId before,
      (forall req, In (Fetch req) (trace (getGraph env net sectionId)) ->
                   net req = Resolved res) ->
      outcome (UseGraph.fetchGraph env net sectionId) = Resolved JNull /\
      UseGraph.error
        (UseGraph.run before (trace (UseGraph.fetchGraph env net sectionId))) = Some d).
Proof.
  intros Hok Hjson Hget Hne.
  assert (Hrej : forall path options,
             net (init env path options) = Resolved res ->
             outcome (apiFetch env net path options) = Rejected (Error d)).
  { intros path options Hnet.
    rewrite (apiFetch_not_ok env net path options res Hnet Hok), Hjson, Hget.
    unfold logical_or, truthy. apply String.eqb_neq in Hne. now rewrite Hne. }
  split.
  - intros c s cat before Hnet.
    assert (Hout : outcome (analyzeCase env net c s cat) = Rejected (Error d)).
    { unfold analyzeCase in *. rewrite apiFetch_trace in Hnet.
      apply Hrej, Hnet. now left. }
    rewrite analyze_unfold. cbn [outcome trace fst snd]. rewrite Hout.
    split; [reflexivity |].
    destruct (analyzeCase_trace env net c s cat) as [req ->]. reflexivity.
  - intros sectionId before Hnet.
    assert (Hout : outcome (getGraph env net sectionId) = Rejected (Error d)).
    { unfold getGraph in *. rewrite apiFetch_trace in Hnet.
      apply Hrej, Hnet. now left. }
    rewrite fetchGraph_unfold. cbn [outcome trace fst snd]. rewrite Hout.
    split; [reflexivity |].
    destruct (getGraph_trace env net sectionId) as [req ->]. reflexivity.
Qed.

(** [hooks_show_backend_detail] for a section that does not exist. *)
Lemma hooks_show_backend_detail_witness :
  UseGraph.error
    (UseGraph.run UseGraph.initial (trace (UseGraph.fetchGraph None not_found_net "IPC_999")))
  = Some "Section not found".
Proof.
  apply (proj2 (hooks_show_backend_detail None not_found_net
                  (mkResponse 404 "Not Found"
                     (Resolved (JObj [("detail", JStr "Section not found")])))
                  (JObj [("detail", JStr "Section not found")]) "Section not found"
                  eq_refl eq_refl eq_refl ltac:(discriminate))
               "IPC_999" UseGraph.initial).
  intros req _. reflexivity.
Defined.

(** X6: [reset] does not cancel a call in flight.  Called while [analyze]
    waits for the response, it empties [data] and [error] and leaves
    [loading] true; when the response arrives the result is stored all the
    same. *)
Theorem reset_does_not_cancel {E : JsEngine} (env : option string) (net : Network)
    (c : string) (s cat : option string) (r : JValue) (before : UseAnalyze.State) :
  outcome (analyzeCase env net c s cat) = Resolved r ->
  let events := trace (UseAnalyze.analyze env net c s cat) in
  let waiting := UseAnalyze.run (UseAnalyze.run before (until_fetch events))
                                (trace UseAnalyze.reset) in
  events = (until_fetch events ++ after_fetch events)%list /\
  waiting = UseAnalyze.mkState JNull true None /\
  UseAnalyze.run waiting (after_fetch events) = UseAnalyze.mkState r false None.
Proof.
  intros Hout events waiting. subst waiting events.
  rewrite analyze_unfold. cbn [trace fst]. rewrite Hout.
  destruct (analyzeCase_trace env net c s cat) as [req ->].
  repeat split.
Qed.

(** [reset_does_not_cancel] on a backend that answers. *)
Lemma reset_does_not_cancel_witness :
  let events := trace (UseAnalyze.analyze None healthy_net "a cheque bounced" None None) in
  UseAnalyze.run
    (UseAnalyze.run (UseAnalyze.run UseAnalyze.initial (until_fetch events))
                    (trace UseAnalyze.reset))
    (after_fetch events)
  = UseAnalyze.mkState (JObj [("status", JStr "ok")]) false None.
Proof.
  intros events.
  apply (reset_does_not_cancel None healthy_net "a cheque bounced" None None
           (JObj [("status", JStr "ok")]) UseAnalyze.initial eq_refl).
Defined.

(** X7: two calls of [analyze] in flight on one hook.  When the first one
    is over [loading] is false although the second still waits; and if the
    first call's response arrives last, its result replaces the result of
    the second call, while a failure arriving last leaves the other call's
    result in [data] next to its own message. *)
Theorem overlapping_analyze_calls {E : JsEngine} (env : option string)
    (net1 net2 : Network) (c1 c2 : string) (s1 s2 cat1 cat2 : option string)
    (before : UseAnalyze.State) :
  let first := trace (UseAnalyze.analyze env net1 c1 s1 cat1) in
  let second := trace (UseAnalyze.analyze env net2 c2 s2 cat2) in
  UseAnalyze.loading
    (UseAnalyze.run before
       (until_fetch first ++ until_fetch second ++ after_fetch first)%list)
  = false /\
  (forall r2, outcome (analyzeCase env net2 c2 s2 cat2) = Resolved r2 ->
     UseAnalyze.run before (until_fetch first ++ until_fetch second
                            ++ after_fetch second ++ after_fetch first)%list
     = match outcome (analyzeCase env net1 c1 s1 cat1) with
       | Resolved r1 => UseAnalyze.mkState r1 false None
       | Rejected e1 => UseAnalyze.mkState r2 false (Some (message e1))
       end).
Proof.
  intros first second. subst first second.
  rewrite !analyze_unfold. cbn [trace fst].
  destruct (analyzeCase_trace env net1 c1 s1 cat1) as [req1 ->].
  destruct (analyzeCase_trace env net2 c2 s2 cat2) as [req2 ->].
  split.
  - destruct (outcome (analyzeCase env net1 c1 s1 cat1)); reflexivity.
  - intros r2 ->. destruct (outcome (analyzeCase env net1 c1 s1 cat1)); reflexivity.
Qed.

(** [overlapping_analyze_calls] with a failing first call that is answered
    after the second one. *)
Lemma overlapping_analyze_calls_witness :
  let first := trace (UseAnalyze.analyze None broken_net "a cheque bounced" None None) in
  let second := trace (UseAnalyze.analyze None healthy_net "a cheque bounced" None None) in
  UseAnalyze.run UseAnalyze.initial
    (until_fetch first ++ until_fetch second ++ after_fetch second ++ after_fetch first)%list
  = UseAnalyze.mkState (JObj [("status", JStr "ok")]) false (Some "HTTP 500").
Proof.
  intros first second.
  apply (proj2 (overlapping_analyze_calls None broken_net healthy_net
                  "a cheque bounced" "a cheque bounced" None None None None
                  UseAnalyze.initial)
               (JObj [("status", JStr "ok")]) eq_refl).
Defined.

Lemma percent_decode_step (c : ascii) (r : string) :
  percent_decode ((if uri_unreserved c then String c "" else "%" ++ hex2 true c) ++ r)
  = match percent_decode r with Some t => Some (String c t) | None => None end.
Proof.
  destruct c as [[] [] [] [] [] [] [] []]; reflexivity.
Qed.

Lemma percent_decode_encode (s : string) :
  percent_decode (encodeURIComponent s) = Some s.
Proof.
  induction s as [| c s IH]; [reflexivity |].
  cbn [encodeURIComponent]. rewrite percent_decode_step, IH. reflexivity.
Qed.

Lemma encodeURIComponent_injective (a b : string) :
  encodeURIComponent a = encodeURIComponent b -> a = b.
Proof.
  intros H. apply (f_equal percent_decode) in H.
  rewrite !percent_decode_encode in H. now injection H.
Qed.

Lemma append_cancel_l (p a b : string) : p ++ a = p ++ b -> a = b.
Proof.
  induction p as [| ch p IH]; simpl; intros H; [exact H |].
  injection H as H. now apply IH.
Qed.

Lemma list_ascii_of_string_app (a b : string) :
  list_ascii_of_string (a ++ b)
  = (list_ascii_of_string a ++ list_ascii_of_string b)%list.
Proof. induction a as [| ch a IH]; simpl; [reflexivity | now rewrite IH]. Qed.

Lemma percent_escape_chars (c ch : ascii) :
  In ch (list_ascii_of_string (if uri_unreserved c then String c "" else "%" ++ hex2 true c)) ->
  uri_unreserved ch = true \/ ch = "%"%char.
Proof.
  destruct c as [[] [] [] [] [] [] [] []]; simpl;
    intros H; repeat (destruct H as [<- | H]; [auto |]); destruct H.
Qed.

Lemma encodeURIComponent_chars (s : string) (ch : ascii) :
  In ch (list_ascii_of_string (encodeURIComponent s)) ->
  uri_unreserved ch = true \/ ch = "%"%char.
Proof.
  induction s as [| c s IH]; [intros [] |].
  cbn [encodeURIComponent]. rewrite list_ascii_of_string_app, in_app_iff.
  intros [H | H]; [exact (percent_escape_chars c ch H) | exact (IH H)].
Qed.

(** X8: for an argument without unpaired surrogates (on one
    [encodeURIComponent] throws and no request is made) the three lookups
    send one request each, and so does [checkHealth], with no method, no
    body and the JSON content type; the URL given to [fetch] is the base URL
    followed by the route and, for a lookup, the encoded argument.  The
    encoded argument holds only the characters
    [A-Z a-z 0-9 - _ . ! ~ * ' ( )] and [%]: it adds no [/], [?], [#], [&],
    [=] or space to the URL (dots are left as they are). *)
Theorem lookups_send_safe_urls {E : JsEngine} (env : option string) (net : Network)
    (arg : string) :
  well_formed_utf8 arg = true ->
  let get := fun path =>
    [Fetch (mkRequest (BASE_URL env ++ path ++ encodeURIComponent arg) None
                      [("Content-Type", "application/json")] None)] in
  trace (getGraph env net arg) = get "/graph/" /\
  trace (getSection env net arg) = get "/section/" /\
  trace (searchSections env net arg) = get "/search?q=" /\
  trace (checkHealth env net)
  = [Fetch (mkRequest (BASE_URL env ++ "/health") None
                      [("Content-Type", "application/json")] None)] /\
  (forall ch, In ch (list_ascii_of_string (encodeURIComponent arg)) ->
              uri_unreserved ch = true \/ ch = "%"%char) /\
  (forall ch, In ch ["/"; "?"; "#"; "&"; "="; " "]%char ->
              ~ In ch (list_ascii_of_string (encodeURIComponent arg))).
Proof.
  intros _ get. subst get.
  unfold getGraph, getSection, searchSections, checkHealth. rewrite !apiFetch_trace.
  unfold init, no_options. cbn [opt_method opt_headers opt_body].
  repeat split.
  - apply encodeURIComponent_chars.
  - intros ch Hch Hin. apply encodeURIComponent_chars in Hin.
    simpl in Hch.
    repeat (destruct Hch as [<- | Hch]; [destruct Hin; discriminate |]).
    destruct Hch.
Qed.

(** [lookups_send_safe_urls] for an id with a slash, a space and a question
    mark: none of them reaches the URL. *)
Lemma lookups_send_safe_urls_witness :
  encodeURIComponent "IPC/420 ?" = "IPC%2F420%20%3F" /\
  ~ In "/"%char (list_ascii_of_string (encodeURIComponent "IPC/420 ?")).
Proof.
  split; [reflexivity |].
  destruct (lookups_send_safe_urls None healthy_net "IPC/420 ?" eq_refl)
    as [_ [_ [_ [_ [_ H]]]]].
  apply H. simpl. auto.
Defined.

(** X9: [getGraph], [getSection] and [searchSections] never call [fetch]
    with the same URL for two different arguments, neither of which holds
    an unpaired surrogate: the encoding loses nothing.  (This is about the
    URL string given to [fetch]; its URL parser may still take two such
    strings, as one ending in [/graph/.] and one in [/graph/], to the same
    address.) *)
Theorem lookups_distinguish_arguments {E : JsEngine} (env : option string) (net : Network)
    (a b : string) :
  well_formed_utf8 a = true ->
  well_formed_utf8 b = true ->
  a <> b ->
  trace (getGraph env net a) <> trace (getGraph env net b) /\
  trace (getSection env net a) <> trace (getSection env net b) /\
  trace (searchSections env net a) <> trace (searchSections env net b).
Proof.
  intros _ _ Hab.
  unfold getGraph, getSection, searchSections. rewrite !apiFetch_trace.
  unfold init, no_options. cbn [opt_method opt_headers opt_body].
  repeat split; intros H; injection H as H; apply append_cancel_l in H;
    repeat injection H as H; apply encodeURIComponent_injective in H; contradiction.
Qed.

(** [lookups_distinguish_arguments] for an id with a slash and the id that
    spells its encoding. *)
Lemma lookups_distinguish_arguments_witness :
  trace (getGraph None healthy_net "IPC/420") <> trace (getGraph None healthy_net "IPC%2F420").
Proof.
  apply (lookups_distinguish_arguments None healthy_net "IPC/420" "IPC%2F420");
    [reflexivity | reflexivity | discriminate].
Defined.

Lemma quoted_field_injective (prefix a b ra rb : string) :
  prefix ++ json_quote a ++ ra = prefix ++ json_quote b ++ rb -> a = b /\ ra = rb.
Proof.
  intros H. apply append_cancel_l in H.
  apply (f_equal read_json_string) in H. rewrite !read_json_string_quote in H.
  injection H as Ha Hr. auto.
Qed.

Lemma same_request_same_body {E : JsEngine} (u1 u2 : string) (m1 m2 : option string)
    (h1 h2 : list (string * string)) (b1 b2 : string) :
  [Fetch (mkRequest u1 m1 h1 (Some b1))] = [Fetch (mkRequest u2 m2 h2 (Some b2))] ->
  b1 = b2.
Proof. intros H. now injection H. Qed.

Lemma analyzeCase_request_injective {E : JsEngine} (env : option string)
    (net : Network) (c1 c2 : string) (s1 s2 cat1 cat2 : option string) :
  trace (analyzeCase env net c1 s1 cat1) = trace (analyzeCase env net c2 s2 cat2) ->
  c1 = c2 /\
  match s1 with Some s => s | None => "All India" end
  = match s2 with Some s => s | None => "All India" end /\
  cat1 = cat2.
Proof.
  unfold analyzeCase. rewrite !apiFetch_trace.
  unfold init. cbn [opt_method opt_headers opt_body].
  intros H. apply same_request_same_body in H. rewrite !analyze_body_text in H.
  apply quoted_field_injective in H. destruct H as [Hc H].
  apply quoted_field_injective in H. destruct H as [Hs H].
  apply append_cancel_l in H.
  split; [exact Hc |]. split; [exact Hs |].
  destruct cat1 as [x1 |], cat2 as [x2 |]; cbn [JSON_stringify] in H.
  - apply (quoted_field_injective "") in H. destruct H as [-> _]. reflexivity.
  - discriminate H.
  - discriminate H.
  - reflexivity.
Qed.

(** X10: the request of [analyzeCase] determines its three arguments: two
    calls that differ in the case description, in the state (an omitted one
    counting as "All India") or in the category never send the same request.
    No description, whatever quotes and backslashes it holds, produces the
    body of a call with another state or category. *)
Theorem analyzeCase_requests_differ {E : JsEngine} (env : option string)
    (net : Network) (c1 c2 : string) (s1 s2 cat1 cat2 : option string) :
  (c1, match s1 with Some s => s | None => "All India" end, cat1)
  <> (c2, match s2 with Some s => s | None => "All India" end, cat2) ->
  trace (analyzeCase env net c1 s1 cat1) <> trace (analyzeCase env net c2 s2 cat2).
Proof.
  intros Hdiff H. apply analyzeCase_request_injective in H.
  destruct H as [Hc [Hs Hcat]]. apply Hdiff. now rewrite Hc, Hs, Hcat.
Qed.

(** [analyzeCase_requests_differ] for a description that spells the end of
    its own field and a state field, against the call that really names the
    state. *)
Lemma analyzeCase_requests_differ_witness :
  let q := String "034" "" in
  trace (analyzeCase None healthy_net ("x" ++ q ++ "," ++ q ++ "state" ++ q ++ ":" ++ q ++ "Goa")
                     None None)
  <> trace (analyzeCase None healthy_net "x" (Some "Goa") None).
Proof.
  intros q.
  apply (analyzeCase_requests_differ None healthy_net
           ("x" ++ q ++ "," ++ q ++ "state" ++ q ++ ":" ++ q ++ "Goa") "x"
           None (Some "Goa") None None).
  discriminate.
Defined.
